(** * Oversized-response mitigation of the Product Hunt MCP server

    A shallow embedding of [src/jsonUtils.ts] (class [JsonResponseHandler])
    together with the fragment of the JavaScript runtime it relies on
    (truthiness, [typeof], string primitives, [JSON.stringify],
    [JSON.parse]), followed by the properties of the natural-language
    specification stated and settled over that embedding.

    Conventions of the embedding:
    - a JavaScript string is a [string], one [ascii] per code unit; text
      outside the 8-bit range is not covered, and the tree-drawing glyphs of
      the outline are kept as the byte sequences of their UTF-8 encoding;
    - a JavaScript number is an integer [Z]: the module itself only
      computes with lengths, counts and byte sizes; fractional numbers
      inside the data are not covered;
    - a plain object is the list of its own enumerable properties in
      [Object.keys] order;
    - a call either returns, throws, or leaves the modelled fragment of the
      runtime ([Outcome]). *)

From Stdlib Require Import ZArith List String Ascii Bool Lia.
From Stdlib Require Import DecimalString DecimalZ DecimalPos DecimalFacts.
Import ListNotations.

Local Open Scope string_scope.
Local Open Scope Z_scope.

(** ** Runtime values *)

#[local] Unset Elimination Schemes.

Inductive JsValue : Type :=
| JUndefined : JsValue
| JNull : JsValue
| JBool : bool -> JsValue
| JNumber : Z -> JsValue
| JString : string -> JsValue
| JArray : list JsValue -> JsValue
| JObject : list (string * JsValue) -> JsValue.

#[local] Set Elimination Schemes.

Inductive JsError : Type :=
| TypeError : string -> JsError
| SyntaxError : string -> JsError
| IOError : string -> JsError.

(** What a call does: it returns a value, throws, or steps outside the
    fragment of JavaScript that is embedded here (inherited properties,
    property access on arrays and primitives). *)
Inductive Outcome (A : Type) : Type :=
| Returns : A -> Outcome A
| Throws : JsError -> Outcome A
| Unmodelled : Outcome A.

Arguments Returns {A} _.
Arguments Throws {A} _.
Arguments Unmodelled {A}.

Definition bind {A B : Type} (m : Outcome A) (k : A -> Outcome B) : Outcome B :=
  match m with
  | Returns a => k a
  | Throws e => Throws e
  | Unmodelled => Unmodelled
  end.

Notation "x <- m ;; k" := (bind m (fun x => k))
  (at level 61, m at next level, right associativity).
Notation "' pat <- m ;; k" := (bind m (fun x => let 'pat := x in k))
  (at level 61, pat pattern, m at next level, right associativity).

Module Js.

(** [ToBoolean]. *)
Definition truthy (v : JsValue) : bool :=
  match v with
  | JUndefined | JNull => false
  | JBool b => b
  | JNumber n => negb (n =? 0)
  | JString s => negb (s =? EmptyString)%string
  | JArray _ | JObject _ => true
  end.

Definition typeof (v : JsValue) : string :=
  match v with
  | JUndefined => "undefined"
  | JNull => "object"
  | JBool _ => "boolean"
  | JNumber _ => "number"
  | JString _ => "string"
  | JArray _ | JObject _ => "object"
  end.

Definition isArray (v : JsValue) : bool :=
  match v with JArray _ => true | _ => false end.

(** Decimal rendering of an integral number, as [String(n)] does for a
    safe integer ([|n| < 2^53]). Beyond that the runtime prints the
    shortest digits that read back as the same double, and an exponent
    form from [1e21] on; this function is not meant for such numbers. *)
Definition showZ (n : Z) : string := NilZero.string_of_int (Z.to_int n).

Definition showNat (n : nat) : string := showZ (Z.of_nat n).

(** [a.slice(0, n)] on an array of length [L]: a negative [n] counts from
    the end. *)
Definition slice0 {A : Type} (n : Z) (l : list A) : list A :=
  if n <? 0
  then firstn (Z.to_nat (Z.of_nat (List.length l) + n)) l
  else firstn (Z.to_nat n) l.

(** [s.substring(0, n)] for a non-negative literal [n]. *)
Definition substring0 (n : nat) (s : string) : string := substring 0 n s.

(** [s.split(c)] for a one-character separator. *)
Fixpoint split (sep : ascii) (s : string) : list string :=
  match s with
  | EmptyString => [EmptyString]
  | String c rest =>
      if Ascii.eqb c sep then EmptyString :: split sep rest
      else match split sep rest with
           | [] => [String c EmptyString]
           | part :: parts => String c part :: parts
           end
  end.

(** [parts.join(sep)]. *)
Definition join (sep : string) (parts : list string) : string :=
  String.concat sep parts.

(** [s.includes(sub)]. *)
Fixpoint includes (s sub : string) : bool :=
  prefix sub s ||
  match s with
  | EmptyString => false
  | String _ rest => includes rest sub
  end.

(** [s.replace(/[...]/g, r)] for a character class given as a predicate. *)
Fixpoint replaceAll (class : ascii -> bool) (r : ascii) (s : string) : string :=
  match s with
  | EmptyString => EmptyString
  | String c rest =>
      String (if class c then r else c) (replaceAll class r rest)
  end.

(** [String(value)] for [undefined], [null], booleans, strings, safe
    integers, and arrays and plain objects of them that inherit
    [toString] (an object with an own [toString] property is outside
    this function). *)
Fixpoint toString (v : JsValue) : string :=
  match v with
  | JUndefined => "undefined"
  | JNull => "null"
  | JBool true => "true"
  | JBool false => "false"
  | JNumber n => showZ n
  | JString s => s
  | JArray items =>
      join ","
        ((fix each (l : list JsValue) : list string :=
            match l with
            | [] => []
            | JUndefined :: rest | JNull :: rest => EmptyString :: each rest
            | x :: rest => toString x :: each rest
            end) items)
  | JObject _ => "[object Object]"
  end.

(** [(num / den).toFixed(1)] for integers with [den > 0] a power of two
    and [|num| < 2^53], so that the quotient is computed exactly and is
    below [1e21]: the decimal with one fractional digit nearest to the
    quotient, the larger one when two are equally near. From [1e21] on
    the runtime answers in exponent form, which this function does not
    follow. *)
Definition toFixed1 (num den : Z) : string :=
  let tenths := (20 * Z.abs num + den) / (2 * den) in
  (if num <? 0 then "-" else EmptyString)
    ++ showZ (tenths / 10) ++ "." ++ showZ (tenths mod 10).

(** A [string | null] interpolated in a template literal. *)
Definition showNullable (x : option string) : string :=
  match x with Some s => s | None => "null" end.

End Js.

(** ** Own properties of plain objects *)

Module Obj.

Definition Fields : Type := list (string * JsValue).

Definition keys (fields : Fields) : list string := map fst fields.

Fixpoint get (key : string) (fields : Fields) : option JsValue :=
  match fields with
  | [] => None
  | (k, v) :: rest => if (k =? key)%string then Some v else get key rest
  end.

Definition hasOwn (key : string) (fields : Fields) : bool :=
  match get key fields with Some _ => true | None => false end.

Definition isDigit (c : ascii) : bool :=
  let n := nat_of_ascii c in (48 <=? n)%nat && (n <=? 57)%nat.

Fixpoint readDigits (acc : Z) (s : string) : option Z :=
  match s with
  | EmptyString => Some acc
  | String c rest =>
      if isDigit c
      then readDigits (10 * acc + Z.of_nat (nat_of_ascii c - 48)) rest
      else None
  end.

(** A key is an array index when it is the canonical decimal form of an
    integer below 2^32 - 1; such keys are enumerated first, in ascending
    numeric order, the others after them in creation order. *)
Definition arrayIndex (key : string) : option Z :=
  match key with
  | EmptyString => None
  | _ =>
      match readDigits 0 key with
      | Some n =>
          if (Js.showZ n =? key)%string && (n <? 4294967295) then Some n else None
      | None => None
      end
  end.

Definition precedes (k k' : string) : bool :=
  match arrayIndex k, arrayIndex k' with
  | Some i, Some j => i <? j
  | Some _, None => true
  | None, _ => false
  end.

Fixpoint replaceOwn (key : string) (v : JsValue) (fields : Fields) : Fields :=
  match fields with
  | [] => []
  | (k, w) :: rest =>
      if (k =? key)%string then (k, v) :: rest
      else (k, w) :: replaceOwn key v rest
  end.

Fixpoint insertOwn (key : string) (v : JsValue) (fields : Fields) : Fields :=
  match fields with
  | [] => [(key, v)]
  | (k, w) :: rest =>
      if precedes key k then (key, v) :: (k, w) :: rest
      else (k, w) :: insertOwn key v rest
  end.

(** [obj[key] = v] on a plain object. *)
Definition set (key : string) (v : JsValue) (fields : Fields) : Fields :=
  if hasOwn key fields then replaceOwn key v fields else insertOwn key v fields.

(** The shape of every own-property list the runtime can produce: no key
    twice, array-index keys first and ascending. *)
Fixpoint ordered (fields : Fields) : bool :=
  match fields with
  | [] => true
  | (k, _) :: rest =>
      negb (hasOwn k rest)
      && forallb (fun e => negb (precedes (fst e) k)) rest
      && ordered rest
  end.

(** Property names that every plain object inherits from
    [Object.prototype]. *)
Definition inherited : list string :=
  [ "constructor"; "__proto__"; "hasOwnProperty"; "isPrototypeOf";
    "propertyIsEnumerable"; "toLocaleString"; "toString"; "valueOf";
    "__defineGetter__"; "__defineSetter__"; "__lookupGetter__";
    "__lookupSetter__" ].

Definition isInherited (key : string) : bool :=
  existsb (fun k => (k =? key)%string) inherited.

End Obj.

(** ** JSON text: [JSON.stringify] and [JSON.parse] *)

Module JSON.

Definition DQ : ascii := "034"%char.
Definition BS : ascii := "\"%char.
Definition LF : string := String "010"%char EmptyString.

Definition hexChar (n : nat) : ascii :=
  if (n <? 10)%nat then ascii_of_nat (48 + n) else ascii_of_nat (87 + n).

Definition unicodeEscape (c : ascii) : string :=
  let n := nat_of_ascii c in
  String BS (String "u" (String "0" (String "0"
    (String (hexChar (n / 16)) (String (hexChar (n mod 16)) EmptyString))))).

(** One code unit of [QuoteJSONString]. *)
Definition quoteChar (c : ascii) : string :=
  let n := nat_of_ascii c in
  if (n =? 8)%nat then "\b"
  else if (n =? 9)%nat then "\t"
  else if (n =? 10)%nat then "\n"
  else if (n =? 12)%nat then "\f"
  else if (n =? 13)%nat then "\r"
  else if (n =? 34)%nat then String BS (String DQ EmptyString)
  else if (n =? 92)%nat then "\\"
  else if (n <? 32)%nat then unicodeEscape c
  else String c EmptyString.

Fixpoint quoteBody (s : string) : string :=
  match s with
  | EmptyString => EmptyString
  | String c rest => quoteChar c ++ quoteBody rest
  end.

Definition quote (s : string) : string :=
  String DQ (quoteBody s ++ String DQ EmptyString).

Fixpoint spaces (n : nat) : string :=
  match n with
  | O => EmptyString
  | S m => String " " (spaces m)
  end.

(** [SerializeJSONProperty] with its two helpers for arrays and objects:
    [None] is the [undefined] the standard returns for a value that has no
    JSON text. *)
Fixpoint serialize (gap indent : string) (v : JsValue) : option string :=
  let stepback := indent in
  let indent := indent ++ gap in
  let opening := if (gap =? EmptyString)%string then EmptyString else LF ++ indent in
  let closing := if (gap =? EmptyString)%string then EmptyString else LF ++ stepback in
  let colon := if (gap =? EmptyString)%string then ":" else ": " in
  match v with
  | JUndefined => None
  | JNull => Some "null"
  | JBool true => Some "true"
  | JBool false => Some "false"
  | JNumber n => Some (Js.showZ n)
  | JString s => Some (quote s)
  | JArray items =>
      let partial :=
        (fix each (l : list JsValue) : list string :=
           match l with
           | [] => []
           | x :: rest =>
               match serialize gap indent x with
               | Some text => text
               | None => "null"
               end :: each rest
           end) items in
      match partial with
      | [] => Some "[]"
      | _ => Some ("[" ++ opening ++ Js.join ("," ++ opening) partial ++ closing ++ "]")
      end
  | JObject fields =>
      let partial :=
        (fix each (l : list (string * JsValue)) : list string :=
           match l with
           | [] => []
           | (key, x) :: rest =>
               match serialize gap indent x with
               | Some text => (quote key ++ colon ++ text) :: each rest
               | None => each rest
               end
           end) fields in
      match partial with
      | [] => Some "{}"
      | _ => Some ("{" ++ opening ++ Js.join ("," ++ opening) partial ++ closing ++ "}")
      end
  end.

(** [JSON.stringify(value, null, space)] for a numeric [space]. *)
Definition stringify (v : JsValue) (space : nat) : option string :=
  serialize (spaces (Nat.min space 10)) EmptyString v.

Definition isWs (c : ascii) : bool :=
  let n := nat_of_ascii c in
  (n =? 32)%nat || (n =? 9)%nat || (n =? 10)%nat || (n =? 13)%nat.

Fixpoint skipWs (s : string) : string :=
  match s with
  | EmptyString => EmptyString
  | String c rest => if isWs c then skipWs rest else s
  end.

Fixpoint drop (n : nat) (s : string) : string :=
  match n, s with
  | O, _ => s
  | S m, String _ rest => drop m rest
  | S _, EmptyString => EmptyString
  end.

Definition digitOf (c : ascii) : option (Decimal.uint -> Decimal.uint) :=
  let n := nat_of_ascii c in
  if (n =? 48)%nat then Some Decimal.D0
  else if (n =? 49)%nat then Some Decimal.D1
  else if (n =? 50)%nat then Some Decimal.D2
  else if (n =? 51)%nat then Some Decimal.D3
  else if (n =? 52)%nat then Some Decimal.D4
  else if (n =? 53)%nat then Some Decimal.D5
  else if (n =? 54)%nat then Some Decimal.D6
  else if (n =? 55)%nat then Some Decimal.D7
  else if (n =? 56)%nat then Some Decimal.D8
  else if (n =? 57)%nat then Some Decimal.D9
  else None.

Fixpoint parseDigits (s : string) : Decimal.uint * string :=
  match s with
  | EmptyString => (Decimal.Nil, EmptyString)
  | String c rest =>
      match digitOf c with
      | Some d => let (u, r) := parseDigits rest in (d u, r)
      | None => (Decimal.Nil, s)
      end
  end.

Definition syntaxError {A : Type} : Outcome A :=
  Throws (SyntaxError "JSON Parse error").

(** An integer literal. A fraction or exponent part, and the literal
    [-0], denote numbers that are not integers of the embedding. *)
Definition parseNumber (s : string) : Outcome (Z * string) :=
  let (negative, s1) :=
    match s with
    | String c rest => if Ascii.eqb c "-" then (true, rest) else (false, s)
    | EmptyString => (false, s)
    end in
  let (u, s2) := parseDigits s1 in
  match u with
  | Decimal.Nil => syntaxError
  | Decimal.D0 (Decimal.D0 _ | Decimal.D1 _ | Decimal.D2 _ | Decimal.D3 _
               | Decimal.D4 _ | Decimal.D5 _ | Decimal.D6 _ | Decimal.D7 _
               | Decimal.D8 _ | Decimal.D9 _) => syntaxError
  | _ =>
      let fractional :=
        match s2 with
        | String c _ => Ascii.eqb c "." || Ascii.eqb c "e" || Ascii.eqb c "E"
        | EmptyString => false
        end in
      let n := Z.of_uint u in
      if fractional || (negative && (n =? 0)) then Unmodelled
      else Returns (if negative then - n else n, s2)
  end.

Definition hexValue (c : ascii) : option nat :=
  let n := nat_of_ascii c in
  if (48 <=? n)%nat && (n <=? 57)%nat then Some (n - 48)%nat
  else if (97 <=? n)%nat && (n <=? 102)%nat then Some (n - 87)%nat
  else if (65 <=? n)%nat && (n <=? 70)%nat then Some (n - 55)%nat
  else None.

Definition simpleEscape (c : ascii) : option ascii :=
  let n := nat_of_ascii c in
  if (n =? 34)%nat then Some DQ
  else if (n =? 92)%nat then Some BS
  else if (n =? 47)%nat then Some "/"%char
  else if (n =? 98)%nat then Some (ascii_of_nat 8)
  else if (n =? 102)%nat then Some (ascii_of_nat 12)
  else if (n =? 110)%nat then Some (ascii_of_nat 10)
  else if (n =? 114)%nat then Some (ascii_of_nat 13)
  else if (n =? 116)%nat then Some (ascii_of_nat 9)
  else None.

(** The characters of a string literal after its opening quote. An
    escape [\uXXXX] above [00FF] denotes a code unit that the strings of
    the embedding, which are made of 8-bit code units, do not carry. *)
Fixpoint parseString (s : string) : Outcome (string * string) :=
  match s with
  | EmptyString => syntaxError
  | String c rest =>
      if Ascii.eqb c DQ then Returns (EmptyString, rest)
      else if Ascii.eqb c BS then
        match rest with
        | EmptyString => syntaxError
        | String e rest1 =>
            if Ascii.eqb e "u" then
              match rest1 with
              | String h1 (String h2 (String h3 (String h4 rest2))) =>
                  match hexValue h1, hexValue h2, hexValue h3, hexValue h4 with
                  | Some a, Some b, Some c3, Some d =>
                      if (a =? 0)%nat && (b =? 0)%nat
                      then ' (body, r) <- parseString rest2 ;;
                           Returns (String (ascii_of_nat (16 * c3 + d)) body, r)
                      else Unmodelled
                  | _, _, _, _ => syntaxError
                  end
              | _ => syntaxError
              end
            else
              match simpleEscape e with
              | Some x =>
                  ' (body, r) <- parseString rest1 ;;
                  Returns (String x body, r)
              | None => syntaxError
              end
        end
      else if (nat_of_ascii c <? 32)%nat then syntaxError
      else ' (body, r) <- parseString rest ;; Returns (String c body, r)
  end.

(** The recursive descent over values, array elements and object members.
    [fuel] bounds the nesting of the calls; running out of it is reported
    as [Unmodelled]. Members are defined on the object under construction
    in the order of the text, a repeated key overwriting the earlier
    value. *)
Fixpoint parseValue (fuel : nat) (s : string) : Outcome (JsValue * string) :=
  match fuel with
  | O => Unmodelled
  | S fuel' =>
      match skipWs s with
      | EmptyString => syntaxError
      | String c rest =>
          if Ascii.eqb c "[" then
            match skipWs rest with
            | String c' rest' =>
                if Ascii.eqb c' "]" then Returns (JArray [], rest')
                else ' (items, r) <- parseElements fuel' rest ;;
                     Returns (JArray items, r)
            | EmptyString => syntaxError
            end
          else if Ascii.eqb c "{" then
            match skipWs rest with
            | String c' rest' =>
                if Ascii.eqb c' "}" then Returns (JObject [], rest')
                else ' (fields, r) <- parseMembers fuel' [] rest ;;
                     Returns (JObject fields, r)
            | EmptyString => syntaxError
            end
          else if Ascii.eqb c DQ then
            ' (text, r) <- parseString rest ;; Returns (JString text, r)
          else if Ascii.eqb c "-" || Obj.isDigit c then
            ' (n, r) <- parseNumber (String c rest) ;; Returns (JNumber n, r)
          else if prefix "true" (String c rest) then
            Returns (JBool true, drop 4 (String c rest))
          else if prefix "false" (String c rest) then
            Returns (JBool false, drop 5 (String c rest))
          else if prefix "null" (String c rest) then
            Returns (JNull, drop 4 (String c rest))
          else syntaxError
      end
  end
with parseElements (fuel : nat) (s : string) : Outcome (list JsValue * string) :=
  match fuel with
  | O => Unmodelled
  | S fuel' =>
      ' (v, r) <- parseValue fuel' s ;;
      match skipWs r with
      | String c rest =>
          if Ascii.eqb c "," then
            ' (vs, r') <- parseElements fuel' rest ;; Returns (v :: vs, r')
          else if Ascii.eqb c "]" then Returns ([v], rest)
          else syntaxError
      | EmptyString => syntaxError
      end
  end
with parseMembers (fuel : nat) (acc : Obj.Fields) (s : string)
  : Outcome (Obj.Fields * string) :=
  match fuel with
  | O => Unmodelled
  | S fuel' =>
      match skipWs s with
      | String c rest =>
          if Ascii.eqb c DQ then
            ' (key, r1) <- parseString rest ;;
            match skipWs r1 with
            | String c1 r2 =>
                if Ascii.eqb c1 ":" then
                  ' (v, r3) <- parseValue fuel' r2 ;;
                  let acc' := Obj.set key v acc in
                  match skipWs r3 with
                  | String c3 r4 =>
                      if Ascii.eqb c3 "," then parseMembers fuel' acc' r4
                      else if Ascii.eqb c3 "}" then Returns (acc', r4)
                      else syntaxError
                  | EmptyString => syntaxError
                  end
                else syntaxError
            | EmptyString => syntaxError
            end
          else syntaxError
      | EmptyString => syntaxError
      end
  end.

(** [JSON.parse(text)]. *)
Definition parse (text : string) : Outcome JsValue :=
  ' (v, rest) <- parseValue (S (String.length text)) text ;;
  match skipWs rest with
  | EmptyString => Returns v
  | String _ _ => syntaxError
  end.

(** [JSON.parse(JSON.stringify(value))]: the argument of [parse] is
    converted to a string, so [undefined] is read as that word. *)
Definition clone (v : JsValue) : Outcome JsValue :=
  match stringify v 0 with
  | Some text => parse text
  | None => parse "undefined"
  end.

End JSON.

(** A value of the JSON data model: no [undefined] anywhere, every
    number an integer that a double holds exactly, and every object with a
    property list the runtime can produce. *)
Fixpoint isJson (v : JsValue) : bool :=
  match v with
  | JUndefined => false
  | JNumber n => Z.abs n <=? 9007199254740991
  | JNull | JBool _ | JString _ => true
  | JArray items =>
      (fix all (l : list JsValue) : bool :=
         match l with
         | [] => true
         | x :: rest => isJson x && all rest
         end) items
  | JObject fields =>
      Obj.ordered fields &&
      (fix all (l : list (string * JsValue)) : bool :=
         match l with
         | [] => true
         | (_, x) :: rest => isJson x && all rest
         end) fields
  end.

(** ** Configuration and result records *)

Record JsonResponseConfig : Type := { maxItemsForContext : Z }.

Record LargeArrayFieldResult : Type := {
  fieldPath : string;
  array : list JsValue;
  parentObj : JsValue;
  fieldKey : string
}.

Record LimitItemsResult : Type := {
  limited : JsValue;
  originalCount : Z;
  wasLimited : bool;
  limitedField : option string
}.

Record SaveRawDataResult : Type := {
  filePath : string;
  fileSize : Z
}.

Record FormatResponseOptions : Type := {
  rawDataSaveDir : option string;
  toolName : option string;
  params : option (list (string * JsValue))
}.

Record TextContent : Type := { type : string; text : string }.

Record CallToolResult : Type := { content : list TextContent }.

(** ** The two objects [limitItems] works on

    [argument] is the caller's value, reachable through the parameter
    [data] (and through [array] and [parentObj] of the locator's report);
    [limitedData] is the local deep clone, [JUndefined] until it is
    allocated. A reference names the cell it was obtained from. *)
Record Store : Type := { argument : JsValue; limitedData : JsValue }.

Inductive Cell : Type := CallerData | LimitedData.

Definition load (st : Store) (c : Cell) : JsValue :=
  match c with
  | CallerData => argument st
  | LimitedData => limitedData st
  end.

Definition store (st : Store) (c : Cell) (v : JsValue) : Store :=
  match c with
  | CallerData => {| argument := v; limitedData := limitedData st |}
  | LimitedData => {| argument := argument st; limitedData := v |}
  end.

(** ** The environment of [saveRawData]: clock and file system *)
Record World : Type := {
  clock : string;
  directories : list string;
  files : list (string * string);
  mkdirError : string -> option JsError;
  writeError : string -> option JsError;
  pathJoin : string -> string -> string
}.

Module Fs.

Definition existsSync (w : World) (dir : string) : bool :=
  existsb (fun d => (d =? dir)%string) (directories w).

Definition mkdirSync (w : World) (dir : string) : Outcome unit * World :=
  match mkdirError w dir with
  | Some e => (Throws e, w)
  | None =>
      (Returns tt,
       {| clock := clock w; directories := dir :: directories w;
          files := files w; mkdirError := mkdirError w;
          writeError := writeError w; pathJoin := pathJoin w |})
  end.

(** Every file other than [file]. *)
Definition others (file : string) (fs : list (string * string))
  : list (string * string) :=
  filter (fun entry => negb (fst entry =? file)%string) fs.

(** [writeFileSync(file, content)] creates the file or replaces what it
    held. *)
Definition writeFileSync (w : World) (file content : string) : Outcome unit * World :=
  match writeError w file with
  | Some e => (Throws e, w)
  | None =>
      (Returns tt,
       {| clock := clock w; directories := directories w;
          files := (file, content) :: others file (files w);
          mkdirError := mkdirError w;
          writeError := writeError w; pathJoin := pathJoin w |})
  end.

Fixpoint lookup (file : string) (fs : list (string * string)) : option string :=
  match fs with
  | [] => None
  | (f, c) :: rest => if (f =? file)%string then Some c else lookup file rest
  end.


(** Size of the UTF-8 encoding of a text of 8-bit code units. *)
Fixpoint utf8Length (s : string) : Z :=
  match s with
  | EmptyString => 0
  | String c rest => (if (nat_of_ascii c <? 128)%nat then 1 else 2) + utf8Length rest
  end.

Definition statSize (w : World) (file : string) : Outcome Z :=
  match lookup file (files w) with
  | Some c => Returns (utf8Length c)
  | None => Throws (IOError "ENOENT")
  end.

End Fs.

Section Handler.

Variable config : JsonResponseConfig.

Definition exceeds (items : list JsValue) : bool :=
  Z.of_nat (List.length items) >? maxItemsForContext config.

(** [findLargeArrayField(data, pathStr)]. The [for ... of Object.keys(data)]
    loop with [value = data[key]] is the walk over the object's own
    properties. *)
Fixpoint findLargeArrayField (data : JsValue) (pathStr : string)
  : option LargeArrayFieldResult :=
  if negb (Js.truthy data) || negb (Js.typeof data =? "object")%string
  then None
  else
    match data with
    | JArray items =>
        if exceeds items
        then Some {| fieldPath := if (pathStr =? EmptyString)%string then "(root)" else pathStr;
                     array := items; parentObj := JNull; fieldKey := EmptyString |}
        else None
    | JObject fields =>
        (fix scan (entries : list (string * JsValue)) : option LargeArrayFieldResult :=
           match entries with
           | [] => None
           | (key, value) :: rest =>
               let currentPath :=
                 if (pathStr =? EmptyString)%string then key
                 else (pathStr ++ "." ++ key)%string in
               match value with
               | JArray items =>
                   if exceeds items
                   then Some {| fieldPath := currentPath; array := items;
                                parentObj := data; fieldKey := key |}
                   else scan rest
               | JObject _ =>
                   match findLargeArrayField value currentPath with
                   | Some found => Some found
                   | None => scan rest
                   end
               | _ => scan rest
               end
           end) fields
    | _ => None
    end.

(** *** [limitItems] *)

(** [target[key]] read on the way to the parent. *)
Definition getProp (target : JsValue) (key : string) : Outcome JsValue :=
  match target with
  | JUndefined | JNull =>
      Throws (TypeError "Cannot read properties of undefined")
  | JObject fields =>
      match Obj.get key fields with
      | Some v => Returns v
      | None => if Obj.isInherited key then Unmodelled else Returns JUndefined
      end
  | _ => Unmodelled
  end.

(** [target[key] = v]. *)
Definition setProp (target : JsValue) (key : string) (v : JsValue) : Outcome JsValue :=
  match target with
  | JUndefined | JNull =>
      Throws (TypeError "Cannot set properties of undefined")
  | JObject fields =>
      if negb (Obj.hasOwn key fields) && (key =? "__proto__")%string
      then Unmodelled
      else Returns (JObject (Obj.set key v fields))
  | _ => Unmodelled
  end.

(** The loop [target = target[pathParts[i]]] followed by
    [target[lastKey] = v], on the tree below [target]: every object of a
    tree is referenced once, so writing into the object reached is
    replacing it along the keys that were followed. *)
Fixpoint assignAt (parts : list string) (lastKey : string) (v : JsValue)
         (target : JsValue) : Outcome JsValue :=
  match parts with
  | [] => setProp target lastKey v
  | part :: more =>
      next <- getProp target part ;;
      written <- assignAt more lastKey v next ;;
      match target with
      | JObject fields => Returns (JObject (Obj.replaceOwn part written fields))
      | _ => Unmodelled
      end
  end.

Definition unlimited (data : JsValue) : LimitItemsResult :=
  {| limited := data; originalCount := 0; wasLimited := false; limitedField := None |}.

(** The same walk and write for a [target] that starts at the root of
    a cell of the store: the cell holds the written tree afterwards. *)
Definition assignThrough (root : Cell) (parts : list string) (lastKey : string)
           (v : JsValue) (st : Store) : Outcome Store :=
  written <- assignAt parts lastKey v (load st root) ;;
  Returns (store st root written).

Definition limitItemsIn (st : Store) : Outcome LimitItemsResult * Store :=
  let data := load st CallerData in
  if negb (Js.truthy data) then (Returns (unlimited data), st)
  else
    match findLargeArrayField data EmptyString with
    | None => (Returns (unlimited data), st)
    | Some largeArrayInfo =>
        let count := Z.of_nat (List.length (array largeArrayInfo)) in
        match parentObj largeArrayInfo with
        | JNull =>
            match data with
            | JArray items =>
                (Returns {| limited := JArray (Js.slice0 (maxItemsForContext config) items);
                            originalCount := count;
                            wasLimited := true;
                            limitedField := Some (fieldPath largeArrayInfo) |}, st)
            | _ => (Throws (TypeError "data.slice is not a function"), st)
            end
        | _ =>
            match JSON.clone data with
            | Returns copy =>
                let st1 := store st LimitedData copy in
                let pathParts := Js.split "." (fieldPath largeArrayInfo) in
                let lastKey := last pathParts EmptyString in
                let cut := JArray (Js.slice0 (maxItemsForContext config) (array largeArrayInfo)) in
                match assignThrough LimitedData (removelast pathParts) lastKey cut st1 with
                | Returns st2 =>
                    (Returns {| limited := load st2 LimitedData;
                                originalCount := count;
                                wasLimited := true;
                                limitedField := Some (fieldPath largeArrayInfo) |}, st2)
                | Throws e => (Throws e, st1)
                | Unmodelled => (Unmodelled, st1)
                end
            | Throws e => (Throws e, st)
            | Unmodelled => (Unmodelled, st)
            end
        end
    end.

(** [limitItems(data)] as the caller sees it. *)
Definition limitItems (data : JsValue) : Outcome LimitItemsResult :=
  fst (limitItemsIn {| argument := data; limitedData := JUndefined |}).

(** The caller's cell once [limitItems(data)] has run. The embedding
    gives the clone a cell of its own and writes there only; a path part
    [__proto__], whose write would reach the prototype that all objects
    share, is [Unmodelled], and this cell says nothing about such a run. *)
Definition argumentAfterLimitItems (data : JsValue) : JsValue :=
  argument (snd (limitItemsIn {| argument := data; limitedData := JUndefined |})).

(** *** [generateJsonStructureTree] *)

Definition elbow : string := "└── ".
Definition tee : string := "├── ".
Definition pipe : string := "│   ".
Definition blank : string := "    ".

Fixpoint generateJsonStructureTree (obj : JsValue) (prefix : string) (isLast : bool)
  : string :=
  match obj with
  | JNull | JUndefined => "null"
  | JArray items =>
      match items with
      | [] => "[]"
      | firstItem :: _ =>
          let header := "Array[" ++ Js.showNat (List.length items) ++ "]" in
          let childPrefix := prefix ++ (if isLast then blank else pipe) in
          let entry :=
            if Js.truthy firstItem && (Js.typeof firstItem =? "object")%string
            then prefix ++ elbow ++ "[0]: "
                   ++ generateJsonStructureTree firstItem childPrefix true
            else prefix ++ elbow ++ "[0]: " ++ Js.typeof firstItem in
          Js.join JSON.LF [header; entry]
      end
  | JObject fields =>
      match fields with
      | [] => "{}"
      | _ =>
          Js.join JSON.LF
            ((fix each (entries : list (string * JsValue)) : list string :=
                match entries with
                | [] => []
                | (key, value) :: rest =>
                    let isLastKey := match rest with [] => true | _ => false end in
                    let connector := if isLastKey then elbow else tee in
                    let childPrefix := prefix ++ (if isLastKey then blank else pipe) in
                    List.app
                    (match value with
                    | JNull | JUndefined =>
                        [prefix ++ connector ++ key ++ ": null"]
                    | JArray [] =>
                        [prefix ++ connector ++ key ++ ": []"]
                    | JArray ((first :: _) as elements) =>
                        if (Js.typeof first =? "object")%string
                        then
                          [ prefix ++ connector ++ key ++ ": Array["
                              ++ Js.showNat (List.length elements) ++ "]";
                            childPrefix ++ elbow ++ "[item]:";
                            Js.join JSON.LF
                              (map (fun l => childPrefix ++ blank ++ l)
                                 (Js.split "010"
                                    (generateJsonStructureTree first
                                       (childPrefix ++ blank) true))) ]
                        else
                          [ prefix ++ connector ++ key ++ ": Array["
                              ++ Js.showNat (List.length elements) ++ "] of "
                              ++ Js.typeof first ]
                    | JObject _ =>
                        [ prefix ++ connector ++ key ++ ":";
                          generateJsonStructureTree value childPrefix true ]
                    | _ =>
                        [prefix ++ connector ++ key ++ ": " ++ Js.typeof value]
                    end) (each rest)
                end) fields)
      end
  | _ => Js.typeof obj
  end.

(** *** [formatFileSize] *)

Definition formatFileSize (bytes : Z) : string :=
  if bytes <? 1024 then Js.showZ bytes ++ " B"
  else if bytes <? 1024 * 1024 then Js.toFixed1 bytes 1024 ++ " KB"
  else Js.toFixed1 bytes (1024 * 1024) ++ " MB".

(** *** [saveRawData] *)

Definition isColonOrDot (c : ascii) : bool :=
  Ascii.eqb c ":" || Ascii.eqb c ".".

(** The complement of the class [a-zA-Z0-9_=-]. *)
Definition unsafeInFileName (c : ascii) : bool :=
  let n := nat_of_ascii c in
  negb (((97 <=? n)%nat && (n <=? 122)%nat)
        || ((65 <=? n)%nat && (n <=? 90)%nat)
        || ((48 <=? n)%nat && (n <=? 57)%nat)
        || (n =? 95)%nat || (n =? 61)%nat || (n =? 45)%nat).

Definition isRelevantParam (entry : string * JsValue) : bool :=
  let (key, value) := entry in
  negb (key =? "raw_data_save_dir")%string
  && match value with JUndefined | JNull => false | _ => true end.

Definition renderParam (entry : string * JsValue) : string :=
  let (key, value) := entry in
  key ++ "=" ++ Js.substring0 30 (Js.toString value).

Definition paramsString (params : option (list (string * JsValue))) : string :=
  match params with
  | None => EmptyString
  | Some entries =>
      let relevantParams :=
        Js.join "_" (map renderParam (filter isRelevantParam entries)) in
      if (relevantParams =? EmptyString)%string then EmptyString
      else "_" ++ Js.replaceAll unsafeInFileName "-" relevantParams
  end.

Definition rawDataFileName (toolName : string)
           (params : option (list (string * JsValue))) (now : string) : string :=
  let timestamp := Js.replaceAll isColonOrDot "-" now in
  toolName ++ paramsString params ++ "_" ++ timestamp ++ ".json".

(** [JSON.stringify] of a value without JSON text yields [undefined],
    which [writeFileSync] refuses. *)
Definition saveRawData (data : JsValue) (saveDir toolName : string)
           (params : option (list (string * JsValue))) (w : World)
  : Outcome SaveRawDataResult * World :=
  let (made, w1) :=
    if negb (Fs.existsSync w saveDir) then Fs.mkdirSync w saveDir
    else (Returns tt, w) in
  match made with
  | Throws e => (Throws e, w1)
  | Unmodelled => (Unmodelled, w1)
  | Returns _ =>
      let filename := rawDataFileName toolName params (clock w1) in
      let filePath := pathJoin w1 saveDir filename in
      match JSON.stringify data 2 with
      | None => (Throws (TypeError "The data argument must be of type string"), w1)
      | Some content =>
          let (written, w2) := Fs.writeFileSync w1 filePath content in
          match written with
          | Throws e => (Throws e, w2)
          | Unmodelled => (Unmodelled, w2)
          | Returns _ =>
              match Fs.statSize w2 filePath with
              | Returns size =>
                  (Returns {| filePath := filePath; fileSize := size |}, w2)
              | Throws e => (Throws e, w2)
              | Unmodelled => (Unmodelled, w2)
              end
          end
      end
  end.

(** *** [formatResponse] *)

Definition optionField {A : Type} (options : option FormatResponseOptions)
           (field : FormatResponseOptions -> option A) : option A :=
  match options with
  | Some o => field o
  | None => None
  end.

Definition nonEmpty (s : option string) : option string :=
  match s with
  | Some x => if (x =? EmptyString)%string then None else Some x
  | None => None
  end.

Definition orElse (s : option string) (fallback : string) : string :=
  match nonEmpty s with
  | Some x => x
  | None => fallback
  end.

Definition fence : string := "```".

Definition renderLines (options : option FormatResponseOptions)
           (savedFileInfo : option SaveRawDataResult) (r : LimitItemsResult)
  : list string :=
  let threshold := Js.showZ (maxItemsForContext config) in
  List.concat
  [ [ ("## " ++ orElse (optionField options toolName) "Response"); EmptyString ];
    match savedFileInfo with
     | Some info =>
         [ ("> **Raw data saved to**: `" ++ filePath info ++ "` ("
             ++ formatFileSize (fileSize info) ++ ")"); EmptyString ]
     | None => []
     end;
    (if wasLimited r
         && match nonEmpty (limitedField r) with Some _ => true | None => false end
      then
        [ ("> **Note**: `" ++ Js.showNullable (limitedField r) ++ "` limited to "
            ++ threshold ++ " items (" ++ Js.showZ (originalCount r) ++ " total). "
            ++ match savedFileInfo with
               | Some _ => "Full data saved to file."
               | None => "Provide `raw_data_save_dir` parameter to save full response."
               end);
          EmptyString ]
      else []);
    [ "### JSON Structure"; fence;
       generateJsonStructureTree (limited r) EmptyString true;
       fence; EmptyString ];
    [ if wasLimited r
       then ("### Data (`" ++ Js.showNullable (limitedField r) ++ "`: "
              ++ threshold ++ "/" ++ Js.showZ (originalCount r) ++ " items)")
       else "### Data" ];
    [ (fence ++ "json");
       match JSON.stringify (limited r) 2 with
       | Some body => body
       | None => EmptyString
       end;
       fence ] ].

Definition formatResponse (data : JsValue) (options : option FormatResponseOptions)
           (w : World) : Outcome CallToolResult * World :=
  let (saved, w1) :=
    match nonEmpty (optionField options rawDataSaveDir) with
    | Some dir =>
        let (r, w') :=
          saveRawData data dir (orElse (optionField options toolName) "response")
                      (optionField options params) w in
        (match r with
         | Returns info => Returns (Some info)
         | Throws e => Throws e
         | Unmodelled => Unmodelled
         end, w')
    | None => (Returns None, w)
    end in
  (savedFileInfo <- saved ;;
   r <- limitItems data ;;
   Returns {| content :=
                [ {| type := "text";
                     text := Js.join JSON.LF (renderLines options savedFileInfo r) |} ] |},
   w1).

End Handler.

Definition cfg10 : JsonResponseConfig := {| maxItemsForContext := 10 |}.

Definition fill (n : nat) (v : JsValue) : JsValue := JArray (repeat v n).

Definition posix (now : string) (failing : string -> option JsError) : World :=
  {| clock := now; directories := ["/tmp"]; files := [];
     mkdirError := failing; writeError := fun _ => None;
     pathJoin := fun d f => d ++ "/" ++ f |}.

(** ** Sample values of the specification's examples *)

Definition item (n : Z) : JsValue := JObject [("id", JNumber n)].

(** [smallArray](5), [largeArray1](15), [nested.largeArray2](20), with
    [nested] declared last, as in the unit test of the locator. *)
Definition sampleNestedLast : JsValue :=
  JObject [ ("smallArray", fill 5 (item 1));
            ("largeArray1", fill 15 (item 2));
            ("nested", JObject [("largeArray2", fill 20 (item 3))]) ].

(** The same three fields with [nested] declared first. *)
Definition sampleNestedFirst : JsValue :=
  JObject [ ("nested", JObject [("largeArray2", fill 20 (item 3))]);
            ("smallArray", fill 5 (item 1));
            ("largeArray1", fill 15 (item 2)) ].

(** An object whose only key contains the path separator. *)
Definition sampleDottedKey : JsValue := JObject [("a.b", fill 11 (item 0))].

(** A dotted key next to the nested field its path spells. *)
Definition sampleDottedSibling : JsValue :=
  JObject [ ("a", JObject [("b", JNumber 1)]); ("a.b", fill 11 (item 0)) ].

(** Values of the repository's unit tests. *)
Definition sampleGraphql : JsValue :=
  JObject [ ("edges", fill 15 (JObject [("node", JObject [("id", JString "1");
                                                          ("name", JString "Test")])]));
            ("pageInfo", JObject [("hasNextPage", JBool true)]) ].

Definition sampleNestedItems : JsValue :=
  JObject [ ("meta", JObject [("total", JNumber 20)]);
            ("data", JObject [("items", fill 12 (item 1))]) ].

Definition sampleDeeplyNested : JsValue :=
  JObject [ ("level1", JObject [ ("level2", JObject [ ("level3",
      JObject [("items", fill 11 (item 1))]) ]) ]) ].

Definition sampleUser : JsValue :=
  JObject [ ("user", JObject [ ("id", JNumber 1);
                               ("profile", JObject [("name", JString "test")]) ]);
            ("active", JBool true) ].

Definition sampleParams : option (list (string * JsValue)) :=
  Some [ ("featured", JBool true); ("first", JNumber 10) ].

Definition renderedText (r : Outcome CallToolResult * World) : string :=
  match fst r with
  | Returns {| content := [ {| text := t |} ] |} => t
  | _ => EmptyString
  end.

(** A world in which the archive directory exists and writes succeed. *)
Definition writableWorld : World :=
  posix "2024-01-02T03:04:05.678Z" (fun _ => None).

Definition samplePost : JsValue :=
  JObject [ ("id", JNumber 1); ("name", JString "test");
            ("nested", JObject [("value", JNumber 123)]);
            ("tags", JArray [JString "a"; JNull; JBool true]) ].

(** A world in which no directory can be created. *)
Definition readOnlyWorld : World :=
  posix "2024-01-02T03:04:05.678Z" (fun _ => Some (IOError "EACCES")).

Definition archiveTo (dir : string) : option FormatResponseOptions :=
  Some {| rawDataSaveDir := Some dir; toolName := Some "get_posts"; params := None |}.

(** The parameters other than the archive directory itself. *)
Definition isNotSaveDirParam (entry : string * JsValue) : bool :=
  negb (fst entry =? "raw_data_save_dir")%string.

(** An oversized array that sits inside an element of an array. *)
Definition sampleInsideArray : JsValue :=
  JObject [ ("rows", JArray [ JObject [("cells", fill 11 (JNumber 0))] ]) ].

(** ** Vocabulary of the specification *)

(** Where a value sits inside another: under a key of an object or at an
    index of an array. *)
Inductive Step : Type :=
| Field : string -> Step
| Element : nat -> Step.

Inductive Occurs : JsValue -> list Step -> JsValue -> Prop :=
| Occurs_here : forall v, Occurs v [] v
| Occurs_field : forall fields key child path w,
    In (key, child) fields -> Occurs child path w ->
    Occurs (JObject fields) (Field key :: path) w
| Occurs_element : forall items index child path w,
    nth_error items index = Some child -> Occurs child path w ->
    Occurs (JArray items) (Element index :: path) w.

(** The position lies inside an element of some array. *)
Definition insideArrayElement (path : list Step) : Prop :=
  exists index, In (Element index) path.

Definition isContainer (v : JsValue) : bool :=
  match v with
  | JArray _ | JObject _ => true
  | _ => false
  end.

(** The value found by following keys through nested objects. *)
Fixpoint valueAt (keys : list string) (v : JsValue) : option JsValue :=
  match keys with
  | [] => Some v
  | key :: more =>
      match v with
      | JObject fields =>
          match Obj.get key fields with
          | Some child => valueAt more child
          | None => None
          end
      | _ => None
      end
  end.

(** The dotted path the locator builds for a field reached through
    [keys] from a position whose own path is [pathStr]. *)
Fixpoint pathFrom (pathStr : string) (keys : list string) : string :=
  match keys with
  | [] => pathStr
  | key :: more =>
      pathFrom (if (pathStr =? EmptyString)%string then key
                else pathStr ++ "." ++ key) more
  end.

(** The specification's limited copy: the array under [keys] replaced by
    its first [n] elements, everything else as in [v]. *)
Fixpoint cutAt (n : Z) (keys : list string) (v : JsValue) : JsValue :=
  match keys with
  | [] =>
      match v with
      | JArray items => JArray (Js.slice0 n items)
      | _ => v
      end
  | key :: more =>
      match v with
      | JObject fields =>
          match Obj.get key fields with
          | Some child => JObject (Obj.replaceOwn key (cutAt n more child) fields)
          | None => v
          end
      | _ => v
      end
  end.

(** The loop of [findLargeArrayField] over the properties still to
    visit, for the object [parent] whose own path is [pathStr]. *)
Definition scanFields (config : JsonResponseConfig) (parent : JsValue) (pathStr : string)
  : list (string * JsValue) -> option LargeArrayFieldResult :=
  fix scan (entries : list (string * JsValue)) : option LargeArrayFieldResult :=
    match entries with
    | [] => None
    | (key, value) :: rest =>
        let currentPath :=
          if (pathStr =? EmptyString)%string then key
          else (pathStr ++ "." ++ key)%string in
        match value with
        | JArray items =>
            if exceeds config items
            then Some {| fieldPath := currentPath; array := items;
                         parentObj := parent; fieldKey := key |}
            else scan rest
        | JObject _ =>
            match findLargeArrayField config value currentPath with
            | Some found => Some found
            | None => scan rest
            end
        | _ => scan rest
        end
    end.

(** What a report of the locator means: the keys that lead from the
    searched value to the reported array, the reported path built from
    them, and a parent exactly when there is at least one key. *)
Definition Located (config : JsonResponseConfig) (v : JsValue) (pathStr : string)
           (r : LargeArrayFieldResult) (keys : list string) : Prop :=
  valueAt keys v = Some (JArray (array r))
  /\ fieldPath r = match keys with
                   | [] => if (pathStr =? EmptyString)%string then "(root)" else pathStr
                   | _ => pathFrom pathStr keys
                   end
  /\ exceeds config (array r) = true
  /\ (keys = [] <-> parentObj r = JNull).

(** Two key sequences that part ways at some key. *)
Inductive Diverge : list string -> list string -> Prop :=
| Diverge_here : forall k k' m m', k <> k' -> Diverge (k :: m) (k' :: m')
| Diverge_later : forall k m m', Diverge m m' -> Diverge (k :: m) (k :: m').

Definition dotFree (key : string) : bool :=
  negb (Js.includes key ".").

(** ** Measures and shapes used in the round-trip argument *)

(** Text made of JSON whitespace only, such as an indentation. *)
Fixpoint allWs (s : string) : bool :=
  match s with
  | EmptyString => true
  | String c rest => JSON.isWs c && allWs rest
  end.

(** What may follow a number literal: anything but a character that would
    continue it. *)
Definition endsNumber (rest : string) : bool :=
  match rest with
  | EmptyString => true
  | String c _ =>
      negb (Obj.isDigit c || Ascii.eqb c "." || Ascii.eqb c "e" || Ascii.eqb c "E")
  end.

(** The first character of the text of a value: neither whitespace nor
    the bracket that closes an array. *)
Definition valueHead (c : ascii) : bool :=
  negb (JSON.isWs c) && negb (Ascii.eqb c "]").

Definition numberHead (c : ascii) : bool :=
  Ascii.eqb c "-" || Obj.isDigit c.

Definition startsWith (ok : ascii -> bool) (s : string) : bool :=
  match s with
  | EmptyString => false
  | String c _ => ok c
  end.

(** Calls of the parser nested while reading the text of a value. *)
Fixpoint fuelFor (v : JsValue) : nat :=
  match v with
  | JArray items =>
      S ((fix sum (l : list JsValue) : nat :=
            match l with
            | [] => O
            | x :: rest => S (fuelFor x + sum rest)
            end) items)
  | JObject fields =>
      S ((fix sum (l : list (string * JsValue)) : nat :=
            match l with
            | [] => O
            | (_, x) :: rest => S (fuelFor x + sum rest)
            end) fields)
  | _ => 1%nat
  end.

Fixpoint fuelForItems (l : list JsValue) : nat :=
  match l with
  | [] => O
  | x :: rest => S (fuelFor x + fuelForItems rest)
  end.

Fixpoint fuelForFields (l : list (string * JsValue)) : nat :=
  match l with
  | [] => O
  | (_, x) :: rest => S (fuelFor x + fuelForFields rest)
  end.

(** The texts of the elements of an array and of the members of an
    object, as [JSON.serialize] lists them. *)
Fixpoint elementTexts (gap indent : string) (l : list JsValue) : list string :=
  match l with
  | [] => []
  | x :: rest =>
      match JSON.serialize gap indent x with
      | Some text => text
      | None => "null"
      end :: elementTexts gap indent rest
  end.

Fixpoint memberTexts (gap indent : string) (l : list (string * JsValue)) : list string :=
  match l with
  | [] => []
  | (key, x) :: rest =>
      match JSON.serialize gap indent x with
      | Some text =>
          (JSON.quote key ++ (if (gap =? EmptyString)%string then ":" else ": ") ++ text)
            :: memberTexts gap indent rest
      | None => memberTexts gap indent rest
      end
  end.

Fixpoint allJson (l : list JsValue) : bool :=
  match l with
  | [] => true
  | x :: rest => isJson x && allJson rest
  end.

Fixpoint allJsonFields (l : list (string * JsValue)) : bool :=
  match l with
  | [] => true
  | (_, x) :: rest => isJson x && allJsonFields rest
  end.

(** The text of a value under a given indentation is read back as that
    value, whatever follows it. *)
Definition ReadsBackAt (gap indent : string) (v : JsValue) : Prop :=
  exists text,
    JSON.serialize gap indent v = Some text
    /\ (forall rest, startsWith valueHead (text ++ rest) = true)
    /\ forall fuel rest,
         (fuelFor v <= fuel)%nat -> endsNumber rest = true ->
         JSON.parseValue fuel (text ++ rest) = Returns (v, rest).

Definition ReadsBack (v : JsValue) : Prop :=
  forall gap indent, allWs gap = true -> allWs indent = true ->
                     ReadsBackAt gap indent v.

(** Properties defined one after the other on an empty object. *)
Definition defineAll (fields acc : Obj.Fields) : Obj.Fields :=
  fold_left (fun a e => Obj.set (fst e) (snd e) a) fields acc.

(** ** Induction over values *)

Section ValueInduction.

Variable P : JsValue -> Prop.
Hypothesis P_undefined : P JUndefined.
Hypothesis P_null : P JNull.
Hypothesis P_bool : forall b, P (JBool b).
Hypothesis P_number : forall n, P (JNumber n).
Hypothesis P_string : forall s, P (JString s).
Hypothesis P_array : forall items, Forall P items -> P (JArray items).
Hypothesis P_object :
  forall fields, Forall (fun e => P (snd e)) fields -> P (JObject fields).

Fixpoint JsValue_ind (v : JsValue) : P v :=
  match v with
  | JUndefined => P_undefined
  | JNull => P_null
  | JBool b => P_bool b
  | JNumber n => P_number n
  | JString s => P_string s
  | JArray items =>
      P_array items
        ((fix all (l : list JsValue) : Forall P l :=
            match l with
            | [] => Forall_nil P
            | x :: rest => Forall_cons x (JsValue_ind x) (all rest)
            end) items)
  | JObject fields =>
      P_object fields
        ((fix all (l : list (string * JsValue)) : Forall (fun e => P (snd e)) l :=
            match l with
            | [] => Forall_nil _
            | e :: rest => Forall_cons e (JsValue_ind (snd e)) (all rest)
            end) fields)
  end.

End ValueInduction.

(** ** The server: data cleaners, [saveData] and its renderer

    The functions of the server source next to the handler: the cleaners of
    [DataCleaners], and the methods [saveData] and [formatResponse] of the
    server class. [encode] is the TOON encoder of an external package and
    is a parameter. *)

Module Server.

(** [String(e)] for a caught error. *)
Definition errorText (e : JsError) : string :=
  match e with
  | TypeError m => "TypeError: " ++ m
  | SyntaxError m => "SyntaxError: " ++ m
  | IOError m => "Error: " ++ m
  end.

(** [a?.key]. *)
Definition optMember (v : JsValue) (key : string) : Outcome JsValue :=
  match v with
  | JUndefined | JNull => Returns JUndefined
  | _ => getProp v key
  end.

(** [a?.substring(0, n)]: only a string has the method. *)
Definition optSubstring (v : JsValue) (n : nat) : Outcome JsValue :=
  match v with
  | JUndefined | JNull => Returns JUndefined
  | JString s => Returns (JString (Js.substring0 n s))
  | _ => Throws (TypeError "substring is not a function")
  end.

(** [items.map(f)] for a callback that may throw: left to right, the first
    error wins. *)
Fixpoint mapM (f : JsValue -> Outcome JsValue) (items : list JsValue)
  : Outcome (list JsValue) :=
  match items with
  | [] => Returns []
  | x :: rest =>
      y <- f x ;;
      ys <- mapM f rest ;;
      Returns (y :: ys)
  end.

(** [items.filter(p)] for a predicate that may throw. *)
Fixpoint filterM (p : JsValue -> Outcome bool) (items : list JsValue)
  : Outcome (list JsValue) :=
  match items with
  | [] => Returns []
  | x :: rest =>
      keep <- p x ;;
      kept <- filterM p rest ;;
      Returns (if keep then x :: kept else kept)
  end.

(** [(e) => e.node?.name]. *)
Definition nodeName (e : JsValue) : Outcome JsValue :=
  node <- getProp e "node" ;; optMember node "name".

Definition isRedacted (name : JsValue) : bool :=
  match name with
  | JString s => (s =? "[REDACTED]")%string
  | _ => false
  end.

(** [raw.topics?.edges?.map(e => e.node?.name).filter(Boolean) || []],
    after an optional [.slice(0, limit)] of the edges. *)
Definition topicNames (raw : JsValue) (limit : option Z) : Outcome JsValue :=
  topics <- getProp raw "topics" ;;
  edges <- optMember topics "edges" ;;
  match edges with
  | JUndefined | JNull => Returns (JArray [])
  | JArray items =>
      let taken := match limit with Some n => Js.slice0 n items | None => items end in
      names <- mapM nodeName taken ;;
      Returns (JArray (filter Js.truthy names))
  | _ => Throws (TypeError "map is not a function")
  end.

(** [raw.makers?.filter(m => m.name !== '[REDACTED]').map(m => m.name) || []]. *)
Definition makerNames (raw : JsValue) : Outcome JsValue :=
  makers <- getProp raw "makers" ;;
  match makers with
  | JUndefined | JNull => Returns (JArray [])
  | JArray items =>
      kept <- filterM (fun m => name <- getProp m "name" ;;
                                Returns (negb (isRedacted name))) items ;;
      names <- mapM (fun m => getProp m "name") kept ;;
      Returns (JArray names)
  | _ => Throws (TypeError "filter is not a function")
  end.

Definition cleanPost (raw : JsValue) : Outcome JsValue :=
  if negb (Js.truthy raw) then Returns JNull
  else
    id <- getProp raw "id" ;;
    slug <- getProp raw "slug" ;;
    name <- getProp raw "name" ;;
    tagline <- getProp raw "tagline" ;;
    rawDescription <- getProp raw "description" ;;
    description <- optSubstring rawDescription 300 ;;
    url <- getProp raw "url" ;;
    website <- getProp raw "website" ;;
    votes <- getProp raw "votesCount" ;;
    comments <- getProp raw "commentsCount" ;;
    rating <- getProp raw "reviewsRating" ;;
    featuredAt <- getProp raw "featuredAt" ;;
    createdAt <- getProp raw "createdAt" ;;
    rawThumbnail <- getProp raw "thumbnail" ;;
    thumbnail <- optMember rawThumbnail "url" ;;
    topics <- topicNames raw None ;;
    makers <- makerNames raw ;;
    user <- getProp raw "user" ;;
    hunter <- optMember user "name" ;;
    Returns (JObject
      [ ("id", id); ("slug", slug); ("name", name); ("tagline", tagline);
        ("description", description); ("url", url); ("website", website);
        ("votes", votes); ("comments", comments); ("rating", rating);
        ("featuredAt", featuredAt); ("createdAt", createdAt);
        ("thumbnail", thumbnail); ("topics", topics); ("makers", makers);
        ("hunter", hunter) ]).

Definition cleanPostListItem (raw : JsValue) : Outcome JsValue :=
  if negb (Js.truthy raw) then Returns JNull
  else
    id <- getProp raw "id" ;;
    slug <- getProp raw "slug" ;;
    name <- getProp raw "name" ;;
    tagline <- getProp raw "tagline" ;;
    votes <- getProp raw "votesCount" ;;
    comments <- getProp raw "commentsCount" ;;
    featuredAt <- getProp raw "featuredAt" ;;
    topics <- topicNames raw (Some 3) ;;
    Returns (JObject
      [ ("id", id); ("slug", slug); ("name", name); ("tagline", tagline);
        ("votes", votes); ("comments", comments); ("featuredAt", featuredAt);
        ("topics", topics) ]).

Definition cleanCollection (raw : JsValue) : Outcome JsValue :=
  if negb (Js.truthy raw) then Returns JNull
  else
    id <- getProp raw "id" ;;
    name <- getProp raw "name" ;;
    rawDescription <- getProp raw "description" ;;
    description <- optSubstring rawDescription 200 ;;
    followers <- getProp raw "followersCount" ;;
    ownCount <- getProp raw "postsCount" ;;
    postsCount <- (if Js.truthy ownCount then Returns ownCount
                   else posts <- getProp raw "posts" ;; optMember posts "totalCount") ;;
    createdAt <- getProp raw "createdAt" ;;
    user <- getProp raw "user" ;;
    curator <- optMember user "name" ;;
    Returns (JObject
      [ ("id", id); ("name", name); ("description", description);
        ("followers", followers); ("postsCount", postsCount);
        ("createdAt", createdAt); ("curator", curator) ]).

(** [saveData(data, dir, toolName)]: whatever is thrown inside the [try]
    block comes back as the text of the [catch] clause. *)
Definition saveData (data : JsValue) (dir toolName : string) (w : World)
  : string * World :=
  let (made, w1) :=
    if negb (Fs.existsSync w dir) then Fs.mkdirSync w dir else (Returns tt, w) in
  match made with
  | Throws e => ("Error saving: " ++ errorText e, w1)
  | Unmodelled => ("Error saving: ", w1)
  | Returns _ =>
      let filename :=
        toolName ++ "_" ++ Js.replaceAll isColonOrDot "-" (clock w1) ++ ".json" in
      let filepath := pathJoin w1 dir filename in
      match JSON.stringify data 2 with
      | None =>
          ("Error saving: "
             ++ errorText (TypeError "The data argument must be of type string"), w1)
      | Some content =>
          let (written, w2) := Fs.writeFileSync w1 filepath content in
          match written with
          | Returns _ => (filepath, w2)
          | Throws e => ("Error saving: " ++ errorText e, w2)
          | Unmodelled => ("Error saving: ", w2)
          end
      end
  end.

Record Options : Type := {
  saveDir : option string;
  tool : option string;
  pagination : option (list (string * JsValue))
}.

Definition field (fields : list (string * JsValue)) (key : string) : JsValue :=
  match Obj.get key fields with
  | Some v => v
  | None => JUndefined
  end.

Definition outputOf (cleanedData : JsValue) (options : Options) : JsValue :=
  JObject
    (("data", cleanedData)
       :: match pagination options with
          | Some p =>
              [ ("pagination",
                 JObject [ ("hasNextPage", field p "hasNextPage");
                           ("endCursor", field p "endCursor");
                           ("total", field p "totalCount") ]) ]
          | None => []
          end).

Section Renderer.

Variable encode : JsValue -> string.

Definition formatResponse (cleanedData : JsValue) (options : Options) (w : World)
  : CallToolResult * World :=
  let output := outputOf cleanedData options in
  let (savedPath, w1) :=
    match nonEmpty (saveDir options), nonEmpty (tool options) with
    | Some dir, Some name => saveData output dir name w
    | _, _ => (EmptyString, w)
    end in
  let text := encode output in
  let text :=
    if (savedPath =? EmptyString)%string then text
    else text ++ JSON.LF ++ JSON.LF ++ "[Cleaned data saved to: " ++ savedPath ++ "]" in
  ({| content := [ {| type := "text"; text := text |} ] |}, w1).

End Renderer.

End Server.

(** ** Further vocabulary *)

(** A position reached through object fields only. *)
Definition fieldsOnly (path : list Step) : Prop :=
  forall index, ~ In (Element index) path.

Fixpoint allChars (ok : ascii -> bool) (s : string) : bool :=
  match s with
  | EmptyString => true
  | String c rest => ok c && allChars ok rest
  end.

Definition isPathSeparator (c : ascii) : bool :=
  Ascii.eqb c "/" || Ascii.eqb c "\".

Definition isNullish (v : JsValue) : bool :=
  match v with
  | JUndefined | JNull => true
  | _ => false
  end.

(** Two values that differ at most in the elements of their arrays beyond
    the first: same keys in the same order, same array lengths, and first
    elements that are alike in turn. *)
Fixpoint alike (v w : JsValue) : Prop :=
  match v, w with
  | JArray (x :: xs), JArray (y :: ys) =>
      alike x y /\ List.length xs = List.length ys
  | JObject fs, JObject gs =>
      (fix each (l : list (string * JsValue)) (m : list (string * JsValue)) : Prop :=
         match l, m with
         | [], [] => True
         | (k, a) :: l', (k', b) :: m' => k = k' /\ alike a b /\ each l' m'
         | _, _ => False
         end) fs gs
  | _, _ => v = w
  end.

Fixpoint alikeFields (l m : list (string * JsValue)) : Prop :=
  match l, m with
  | [], [] => True
  | (k, a) :: l', (k', b) :: m' => k = k' /\ alike a b /\ alikeFields l' m'
  | _, _ => False
  end.

(** [Number.MAX_SAFE_INTEGER]. *)
Definition maxSafeInteger : Z := 9007199254740991.




Definition safeInFileName (c : ascii) : bool := negb (unsafeInFileName c).

Definition notPathSeparator (c : ascii) : bool := negb (isPathSeparator c).

(** Parameters whose values try to leave the archive directory. *)
Definition sampleHostileParams : option (list (string * JsValue)) :=
  Some [ ("q", JString "../../etc/passwd"); ("dir", JString "a\b");
         ("raw_data_save_dir", JString "/tmp/out") ].


(** A post as the API returns it, with a redacted maker and an edge
    without a node. *)
Definition sampleRawPost : JsValue :=
  JObject
    [ ("id", JString "1"); ("name", JString "Tool");
      ("description", JString "A tool"); ("votesCount", JNumber 7);
      ("topics",
       JObject [ ("edges",
                  JArray [ JObject [("node", JObject [("name", JString "AI")])];
                           JObject [("node", JNull)];
                           JObject [("node", JObject [("name", JString "Dev")])];
                           JObject [("node", JObject [("name", JString "Web")])];
                           JObject [("node", JObject [("name", JString "Ops")])] ]) ]);
      ("makers", JArray [ JObject [("name", JString "Ann")];
                          JObject [("name", JString "[REDACTED]")];
                          JObject [("name", JString "Bob")] ]);
      ("user", JObject [("name", JString "Hunter")]) ].


(** The report of the locator on [sampleNestedItems]. *)
Definition sampleNestedReport : LargeArrayFieldResult :=
  {| fieldPath := "data.items"; array := repeat (item 1) 12;
     parentObj := JObject [("items", fill 12 (item 1))]; fieldKey := "items" |}.

(** * Properties *)

(** ** The locator *)

Section Locator.

Variable config : JsonResponseConfig.

Lemma find_scalar v pathStr :
  isContainer v = false -> findLargeArrayField config v pathStr = None.
Proof.
  destruct v; intros H; try discriminate H; simpl;
    rewrite ?orb_true_r; reflexivity.
Qed.

Lemma find_array items pathStr :
  findLargeArrayField config (JArray items) pathStr =
  if exceeds config items
  then Some {| fieldPath := if (pathStr =? EmptyString)%string then "(root)" else pathStr;
               array := items; parentObj := JNull; fieldKey := EmptyString |}
  else None.
Proof. reflexivity. Qed.

(** Nothing is reported when every oversized array sits inside an element
    of some array. *)
Lemma find_none_outside_arrays data :
  (forall path items,
      Occurs data path (JArray items) -> exceeds config items = true ->
      insideArrayElement path) ->
  forall pathStr, findLargeArrayField config data pathStr = None.
Proof.
  induction data as [| | b | n | s | items IH | fields IH] using JsValue_ind;
    intros Hocc pathStr; try (apply find_scalar; reflexivity).
  - rewrite find_array.
    destruct (exceeds config items) eqn:E; [|reflexivity].
    destruct (Hocc [] items (Occurs_here _) E) as [i []].
  - simpl.
    assert (Hsub : forall key child, In (key, child) fields ->
               forall path items, Occurs child path (JArray items) ->
               exceeds config items = true -> insideArrayElement path).
    { intros key child Hin path items Ho E.
      destruct (Hocc (Field key :: path) items (Occurs_field _ _ _ _ _ Hin Ho) E)
        as [i [Hi | Hi]]; [discriminate | exists i; exact Hi]. }
    clear Hocc. generalize (JObject fields) as parent. intros parent.
    induction fields as [| [key value] rest IHrest]; [reflexivity|].
    inversion IH as [| ? ? Hvalue Hrest]; subst.
    specialize (IHrest Hrest (fun k c H => Hsub k c (or_intror H))).
    pose proof (Hsub key value (or_introl eq_refl)) as Hv.
    cbn [snd] in Hvalue. specialize (Hvalue Hv).
    destruct value as [| | | | | inner | inner]; try exact IHrest.
    + destruct (exceeds config inner) eqn:E; [|exact IHrest].
      destruct (Hv [] inner (Occurs_here _) E) as [i []].
    + rewrite Hvalue. exact IHrest.
Qed.

(** A root array is never looked into: only its own length counts. *)
Lemma find_root_array_within_threshold items :
  exceeds config items = false ->
  findLargeArrayField config (JArray items) EmptyString = None.
Proof. intros E. rewrite find_array, E. reflexivity. Qed.

Lemma limitItems_unlimited data :
  findLargeArrayField config data EmptyString = None ->
  limitItems config data = Returns (unlimited data).
Proof.
  intros Hnone. unfold limitItems, limitItemsIn. cbv zeta. cbn [load argument fst].
  destruct (negb (Js.truthy data)); [reflexivity|].
  rewrite Hnone. reflexivity.
Qed.

(** C6. The locator never searches inside arrays: when every array
    longer than the threshold occurs only inside an element of some
    array, the locator reports no match and the limiter returns the input
    unlimited; no match either for a value that is neither object nor
    array, for the empty array, or for a root array within the
    threshold, whatever its elements hold. *)
Theorem locator_never_searches_inside_arrays data :
  0 <= maxItemsForContext config ->
  (forall path items,
      Occurs data path (JArray items) -> exceeds config items = true ->
      insideArrayElement path) ->
  findLargeArrayField config data EmptyString = None
  /\ limitItems config data = Returns (unlimited data)
  /\ (forall v, isContainer v = false ->
                findLargeArrayField config v EmptyString = None)
  /\ findLargeArrayField config (JArray []) EmptyString = None
  /\ (forall items, exceeds config items = false ->
                    findLargeArrayField config (JArray items) EmptyString = None).
Proof.
  intros Hpos Hocc.
  pose proof (find_none_outside_arrays data Hocc EmptyString) as Hnone.
  repeat split.
  - exact Hnone.
  - apply limitItems_unlimited, Hnone.
  - intros v Hv. apply find_scalar, Hv.
  - apply find_root_array_within_threshold. unfold exceeds. simpl. lia.
  - apply find_root_array_within_threshold.
Qed.

(** C4. A root array of length [L] under threshold [N]: when [L <= N]
    it is returned unchanged with [wasLimited = false],
    [originalCount = 0] and no limited field; when [L > N] the result is
    its first [N] elements, [min N L] of them, with [originalCount = L],
    [wasLimited = true] and the root marker as limited field. *)
Theorem limitItems_root_array V :
  0 <= maxItemsForContext config ->
  let N := maxItemsForContext config in
  let L := Z.of_nat (List.length V) in
  (L <= N ->
   limitItems config (JArray V) =
   Returns {| limited := JArray V; originalCount := 0;
              wasLimited := false; limitedField := None |})
  /\ (N < L ->
      limitItems config (JArray V) =
      Returns {| limited := JArray (firstn (Z.to_nat N) V); originalCount := L;
                 wasLimited := true; limitedField := Some "(root)" |}
      /\ Z.of_nat (List.length (firstn (Z.to_nat N) V)) = Z.min N L).
Proof.
  intros Hpos N L. split; intros HL.
  - apply limitItems_unlimited. apply find_root_array_within_threshold.
    unfold exceeds. fold L N. lia.
  - split.
    + unfold limitItems, limitItemsIn. cbv zeta. cbn [load argument fst Js.truthy negb].
      rewrite find_array. unfold exceeds. fold L N.
      replace (L >? N) with true by lia.
      cbn. unfold Js.slice0. fold N.
      replace (N <? 0) with false by lia. reflexivity.
    + rewrite length_firstn. subst L. lia.
Qed.

End Locator.

(** The unit test of the locator: with [nested] declared last, the
    depth-1 field is reported. *)
Example locator_nested_declared_last :
  option_map fieldPath (findLargeArrayField cfg10 sampleNestedLast EmptyString)
  = Some "largeArray1".
Proof. reflexivity. Qed.

(** C1. With [nested] declared before the depth-1 oversized array, the
    locator descends into it first and reports [nested.largeArray2], not
    the depth-1 field [largeArray1]. *)
Theorem locator_descends_before_later_depth_one_field :
  Obj.get "largeArray1"
    (match sampleNestedFirst with JObject fields => fields | _ => [] end)
  = Some (fill 15 (item 2))
  /\ option_map fieldPath (findLargeArrayField cfg10 sampleNestedFirst EmptyString)
     = Some "nested.largeArray2".
Proof. split; reflexivity. Qed.

Lemma locator_never_searches_inside_arrays_witness :
  0 <= maxItemsForContext cfg10
  /\ findLargeArrayField cfg10 sampleInsideArray EmptyString = None
  /\ limitItems cfg10 sampleInsideArray = Returns (unlimited sampleInsideArray).
Proof.
  assert (Hpos : 0 <= maxItemsForContext cfg10) by (simpl; lia).
  assert (Hocc : forall path items,
             Occurs sampleInsideArray path (JArray items) ->
             exceeds cfg10 items = true -> insideArrayElement path).
  { intros path items Ho E.
    inversion Ho as [| fs k child p w Hin Hc |]; subst.
    destruct Hin as [Hin | []]. inversion Hin; subst.
    inversion Hc as [| | its i c p' w' Hn Hc']; subst.
    - discriminate E.
    - exists i. right. left. reflexivity. }
  destruct (locator_never_searches_inside_arrays cfg10 sampleInsideArray Hpos Hocc)
    as (H1 & H2 & _).
  exact (conj Hpos (conj H1 H2)).
Defined.

Lemma limitItems_root_array_witness :
  0 <= maxItemsForContext cfg10
  /\ limitItems cfg10 (fill 15 (item 0)) =
     Returns {| limited := fill 10 (item 0); originalCount := 15;
                wasLimited := true; limitedField := Some "(root)" |}
  /\ limitItems cfg10 (fill 5 (item 0)) =
     Returns {| limited := fill 5 (item 0); originalCount := 0;
                wasLimited := false; limitedField := None |}.
Proof.
  assert (Hpos : 0 <= maxItemsForContext cfg10) by (simpl; lia).
  split; [exact Hpos|]. split.
  - destruct (limitItems_root_array cfg10 (repeat (item 0) 15) Hpos) as [_ Hbig].
    apply Hbig. vm_compute. reflexivity.
  - destruct (limitItems_root_array cfg10 (repeat (item 0) 5) Hpos) as [Hsmall _].
    apply Hsmall. vm_compute. discriminate.
Defined.

(** C5. On an object whose key contains the path separator the limiter
    throws: the path [a.b] is split into [a] and [b], the clone has no
    property [a], and the assignment goes to [undefined]. *)
Theorem limitItems_throws_on_dotted_key :
  option_map fieldPath (findLargeArrayField cfg10 sampleDottedKey EmptyString) = Some "a.b"
  /\ limitItems cfg10 sampleDottedKey
     = Throws (TypeError "Cannot set properties of undefined").
Proof. split; vm_compute; reflexivity. Qed.

(** C3. When a dotted key sits next to the nested field its path spells,
    the locator reports the depth-1 field [a.b], and the limiter returns a
    copy in which that field still has all eleven elements while the other
    subtree, [a], has been changed; the argument itself is left as it
    was. *)
Theorem limitItems_replaces_wrong_field_on_dotted_key :
  option_map fieldKey (findLargeArrayField cfg10 sampleDottedSibling EmptyString)
  = Some "a.b"
  /\ limitItems cfg10 sampleDottedSibling
     = Returns {| limited :=
                    JObject [ ("a", JObject [("b", fill 10 (item 0))]);
                              ("a.b", fill 11 (item 0)) ];
                  originalCount := 11; wasLimited := true;
                  limitedField := Some "a.b" |}
  /\ argumentAfterLimitItems cfg10 sampleDottedSibling = sampleDottedSibling.
Proof. repeat split; vm_compute; reflexivity. Qed.

(** ** The structure summarizer *)

Lemma summarizer_leaves prefix isLast :
  generateJsonStructureTree JNull prefix isLast = "null"
  /\ generateJsonStructureTree JUndefined prefix isLast = "null"
  /\ generateJsonStructureTree (JArray []) prefix isLast = "[]"
  /\ generateJsonStructureTree (JObject []) prefix isLast = "{}"
  /\ (forall n, generateJsonStructureTree (JNumber n) prefix isLast = "number")
  /\ (forall s, generateJsonStructureTree (JString s) prefix isLast = "string")
  /\ (forall b, generateJsonStructureTree (JBool b) prefix isLast = "boolean").
Proof. repeat split. Qed.

Example summarizer_primitive_array :
  let outline :=
    generateJsonStructureTree (JArray [JNumber 1; JNumber 2; JNumber 3]) EmptyString true in
  Js.includes outline "Array[3]" = true /\ Js.includes outline "[0]: number" = true.
Proof. split; vm_compute; reflexivity. Qed.

Example summarizer_null_field :
  generateJsonStructureTree (JObject [("k", JNull)]) EmptyString true = elbow ++ "k: null".
Proof. reflexivity. Qed.

(** C8. A [null] that is element 0 of the summarized array is rendered
    with [typeof], as [object], and an [undefined] there as [undefined]:
    neither outline contains the literal [null]. *)
Theorem summarizer_null_element_is_not_rendered_null :
  generateJsonStructureTree (JArray [JNull]) EmptyString true
  = "Array[1]" ++ JSON.LF ++ elbow ++ "[0]: object"
  /\ generateJsonStructureTree (JArray [JUndefined]) EmptyString true
     = "Array[1]" ++ JSON.LF ++ elbow ++ "[0]: undefined"
  /\ Js.includes (generateJsonStructureTree (JArray [JNull]) EmptyString true) "null" = false
  /\ Js.includes (generateJsonStructureTree (JArray [JUndefined]) EmptyString true) "null" = false.
Proof. repeat split. Qed.

(** ** Byte sizes *)

Lemma toFixed1_nearest num den :
  0 <= num -> 0 < den ->
  exists whole tenth,
    Js.toFixed1 num den = Js.showZ whole ++ "." ++ Js.showZ tenth
    /\ 0 <= whole /\ 0 <= tenth <= 9
    /\ - den < 2 * (den * (10 * whole + tenth) - 10 * num) <= den.
Proof.
  intros Hnum Hden. unfold Js.toFixed1.
  replace (num <? 0) with false by lia.
  rewrite Z.abs_eq by lia.
  set (t := (20 * num + den) / (2 * den)).
  exists (t / 10), (t mod 10).
  assert (Ht : 0 <= t) by (apply Z.div_pos; lia).
  pose proof (Z.div_mod t 10 ltac:(lia)) as Hdm.
  pose proof (Z.mod_pos_bound t 10 ltac:(lia)) as Hmod.
  pose proof (Z.div_mod (20 * num + den) (2 * den) ltac:(lia)) as Hq.
  pose proof (Z.mod_pos_bound (20 * num + den) (2 * den) ltac:(lia)) as Hr.
  fold t in Hq.
  assert (Hwhole : 0 <= t / 10) by (apply Z.div_pos; lia).
  assert (Hnear : - den < 2 * (den * t - 10 * num) <= den) by nia.
  replace (10 * (t / 10) + t mod 10) with t by lia.
  repeat split; lia || reflexivity.
Qed.

(** C9. For every byte count, a safe integer from 0 on, [formatFileSize]
    uses multiples of 1024 in three bands: below 1024 the byte count
    itself followed by [B]; from 1024 up to 1048576 excluded, the count
    of kibibytes to the nearest tenth followed by [KB]; from 1048576 on,
    the count of mebibytes to the nearest tenth followed by [MB]; with the
    four sample renderings. *)
Theorem formatFileSize_bands n :
  0 <= n <= maxSafeInteger ->
  (n < 1024 -> formatFileSize n = Js.showZ n ++ " B")
  /\ (1024 <= n < 1048576 ->
      exists whole tenth,
        formatFileSize n = Js.showZ whole ++ "." ++ Js.showZ tenth ++ " KB"
        /\ 0 <= whole /\ 0 <= tenth <= 9
        /\ - 1024 < 2 * (1024 * (10 * whole + tenth) - 10 * n) <= 1024)
  /\ (1048576 <= n ->
      exists whole tenth,
        formatFileSize n = Js.showZ whole ++ "." ++ Js.showZ tenth ++ " MB"
        /\ 0 <= whole /\ 0 <= tenth <= 9
        /\ - 1048576 < 2 * (1048576 * (10 * whole + tenth) - 10 * n) <= 1048576)
  /\ formatFileSize 500 = "500 B"
  /\ formatFileSize 1024 = "1.0 KB"
  /\ formatFileSize 2560 = "2.5 KB"
  /\ formatFileSize 1048576 = "1.0 MB".
Proof.
  intros Hsafe.
  repeat split; try reflexivity; intros Hn; unfold formatFileSize.
  - replace (n <? 1024) with true by lia. reflexivity.
  - replace (n <? 1024) with false by lia.
    replace (n <? 1024 * 1024) with true by lia.
    destruct (toFixed1_nearest n 1024) as (whole & tenth & E & Hw & Ht & Hnear); try lia.
    exists whole, tenth. rewrite E. repeat split; try lia.
    clear. induction (Js.showZ whole) as [|c s IH]; simpl; [reflexivity|].
    f_equal. exact IH.
  - replace (n <? 1024) with false by lia.
    replace (n <? 1024 * 1024) with false by lia.
    destruct (toFixed1_nearest n (1024 * 1024)) as (whole & tenth & E & Hw & Ht & Hnear);
      try lia.
    exists whole, tenth. rewrite E. repeat split; try lia.
    clear. induction (Js.showZ whole) as [|c s IH]; simpl; [reflexivity|].
    f_equal. exact IH.
Qed.

Lemma formatFileSize_bands_witness :
  (0 <= 3 <= maxSafeInteger /\ 3 < 1024 /\ formatFileSize 3 = Js.showZ 3 ++ " B")
  /\ (0 <= 1075 <= maxSafeInteger /\ 1024 <= 1075 < 1048576 /\
      exists whole tenth,
        formatFileSize 1075 = Js.showZ whole ++ "." ++ Js.showZ tenth ++ " KB"
        /\ 0 <= whole /\ 0 <= tenth <= 9
        /\ - 1024 < 2 * (1024 * (10 * whole + tenth) - 10 * 1075) <= 1024)
  /\ (0 <= 2621440 <= maxSafeInteger /\ 1048576 <= 2621440 /\
      exists whole tenth,
        formatFileSize 2621440 = Js.showZ whole ++ "." ++ Js.showZ tenth ++ " MB"
        /\ 0 <= whole /\ 0 <= tenth <= 9
        /\ - 1048576 < 2 * (1048576 * (10 * whole + tenth) - 10 * 2621440) <= 1048576).
Proof.
  assert (S3 : 0 <= 3 <= maxSafeInteger) by (split; vm_compute; discriminate).
  assert (S1075 : 0 <= 1075 <= maxSafeInteger) by (split; vm_compute; discriminate).
  assert (S2621440 : 0 <= 2621440 <= maxSafeInteger)
    by (split; vm_compute; discriminate).
  assert (A : 3 < 1024) by (vm_compute; reflexivity).
  assert (B : 1024 <= 1075 < 1048576) by (split; vm_compute; [discriminate | reflexivity]).
  assert (C : 1048576 <= 2621440) by (vm_compute; discriminate).
  split; [|split].
  - exact (conj S3 (conj A (proj1 (formatFileSize_bands 3 S3) A))).
  - exact (conj S1075 (conj B (proj1 (proj2 (formatFileSize_bands 1075 S1075)) B))).
  - exact (conj S2621440
             (conj C (proj1 (proj2 (proj2 (formatFileSize_bands 2621440 S2621440))) C))).
Defined.

(** ** Strings *)

Lemma append_assoc (a b c : string) : (a ++ b) ++ c = a ++ b ++ c.
Proof. induction a as [|x a IH]; simpl; [reflexivity|]. now rewrite IH. Qed.

Lemma append_empty_r (a : string) : a ++ EmptyString = a.
Proof. induction a as [|x a IH]; simpl; [reflexivity|]. now rewrite IH. Qed.

Lemma length_append (a b : string) :
  String.length (a ++ b) = (String.length a + String.length b)%nat.
Proof. induction a as [|x a IH]; simpl; [reflexivity|]. now rewrite IH. Qed.

Lemma prefix_extend sub s c : prefix sub s = true -> prefix sub (s ++ c) = true.
Proof.
  revert s. induction sub as [|x sub IH]; intros s H;
    [destruct (s ++ c); reflexivity|].
  destruct s as [|y s]; simpl in *; [discriminate|].
  destruct (ascii_dec x y); [apply IH, H | discriminate].
Qed.

Lemma includes_extend sub s c :
  Js.includes s sub = true -> Js.includes (s ++ c) sub = true.
Proof.
  induction s as [|y s IH]; simpl; intros H.
  - rewrite orb_false_r in H. destruct sub; [|discriminate].
    destruct c; reflexivity.
  - apply orb_true_iff in H. apply orb_true_iff. destruct H as [H | H].
    + left. exact (prefix_extend sub (String y s) c H).
    + right. apply IH, H.
Qed.

Lemma includes_after a s sub :
  Js.includes s sub = true -> Js.includes (a ++ s) sub = true.
Proof.
  intros H. induction a as [|x a IH]; simpl; [exact H|].
  rewrite IH. apply orb_true_r.
Qed.

Lemma includes_inside a s c sub :
  Js.includes s sub = true -> Js.includes (a ++ s ++ c) sub = true.
Proof. intros H. apply includes_after, includes_extend, H. Qed.

(** ** The archive file name *)

Lemma relevant_params_ignore_save_dir entries :
  filter isRelevantParam (filter isNotSaveDirParam entries)
  = filter isRelevantParam entries.
Proof.
  induction entries as [| [key value] rest IH]; [reflexivity|].
  cbn [filter]. unfold isNotSaveDirParam at 1. cbn [fst].
  unfold isRelevantParam at 2.
  destruct (key =? "raw_data_save_dir")%string eqn:E; cbn [negb andb].
  - exact IH.
  - cbn [filter]. unfold isRelevantParam at 1. rewrite E. cbn [negb andb].
    rewrite IH. reflexivity.
Qed.

(** C7, the claim as stated fails: a parameter value (or the tool name)
    that itself holds the text is copied into the file name. *)
Lemma rawDataFileName_can_contain_save_dir_name :
  Js.includes
    (rawDataFileName "get_posts" (Some [("query", JString "raw_data_save_dir")])
       "2024-01-02T03:04:05.678Z")
    "raw_data_save_dir" = true.
Proof. vm_compute. reflexivity. Qed.

(** C7, amended. With parameters [{featured: true, first: 10}] the file
    name contains [featured=true] and [first=10]; and for every parameter
    mapping the parameter named [raw_data_save_dir] contributes nothing:
    the file name is the one derived from the mapping without it, so that
    with [{featured: true, raw_data_save_dir: '/some/path'}] the parameter
    block does not contain that name. *)
Theorem rawDataFileName_params toolName now :
  (Js.includes
     (rawDataFileName toolName (Some [("featured", JBool true); ("first", JNumber 10)]) now)
     "featured=true" = true
   /\ Js.includes
        (rawDataFileName toolName (Some [("featured", JBool true); ("first", JNumber 10)]) now)
        "first=10" = true)
  /\ (forall entries,
         rawDataFileName toolName (Some entries) now
         = rawDataFileName toolName (Some (filter isNotSaveDirParam entries)) now)
  /\ (forall value,
         paramsString (Some [("featured", JBool true); ("raw_data_save_dir", value)])
         = "_featured=true").
Proof.
  split; [split|split].
  - unfold rawDataFileName.
    change (paramsString _) with "_featured=true_first=10".
    apply includes_inside. reflexivity.
  - unfold rawDataFileName.
    change (paramsString _) with "_featured=true_first=10".
    apply includes_inside. reflexivity.
  - intros entries. unfold rawDataFileName, paramsString.
    rewrite relevant_params_ignore_save_dir. reflexivity.
  - intros value. unfold paramsString. cbn [filter isRelevantParam].
    destruct value; reflexivity.
Qed.

(** ** The renderer *)

Section Renderer.

Variable config : JsonResponseConfig.

Lemma saveRawData_mkdir_failure data dir tool ps w e :
  Fs.existsSync w dir = false -> mkdirError w dir = Some e ->
  fst (saveRawData data dir tool ps w) = Throws e.
Proof.
  intros Hex Hmk. unfold saveRawData. rewrite Hex. cbn [negb].
  unfold Fs.mkdirSync. rewrite Hmk. reflexivity.
Qed.

Lemma saveRawData_write_failure data dir tool ps w e :
  JSON.stringify data 2 <> None ->
  Fs.existsSync w dir = true \/ mkdirError w dir = None ->
  (forall file, writeError w file = Some e) ->
  fst (saveRawData data dir tool ps w) = Throws e.
Proof.
  intros Htext Hdir Hwr. unfold saveRawData.
  destruct (JSON.stringify data 2) as [content|] eqn:E; [|contradiction].
  destruct (Fs.existsSync w dir) eqn:Hex; cbn [negb].
  - unfold Fs.writeFileSync. rewrite Hwr. reflexivity.
  - destruct Hdir as [Hdir | Hdir]; [discriminate|].
    unfold Fs.mkdirSync. rewrite Hdir. cbn [clock pathJoin].
    unfold Fs.writeFileSync. cbn [writeError]. rewrite Hwr. reflexivity.
Qed.

(** C2. When the archive directory cannot be created, or the archive
    file cannot be written, [formatResponse] throws that error: it
    returns no text at all, so neither the structure nor the data section
    is produced and nothing is reported inline. *)
Theorem formatResponse_raises_archive_failure data options dir w e :
  nonEmpty (optionField options rawDataSaveDir) = Some dir ->
  (Fs.existsSync w dir = false /\ mkdirError w dir = Some e)
  \/ (JSON.stringify data 2 <> None
      /\ (Fs.existsSync w dir = true \/ mkdirError w dir = None)
      /\ forall file, writeError w file = Some e) ->
  fst (formatResponse config data options w) = Throws e.
Proof.
  intros Hdir Hfail. unfold formatResponse. rewrite Hdir.
  set (tool := orElse (optionField options toolName) "response").
  set (ps := optionField options params).
  assert (Hsave : fst (saveRawData data dir tool ps w) = Throws e).
  { destruct Hfail as [[Hex Hmk] | (Htext & Hd & Hwr)].
    - apply saveRawData_mkdir_failure; assumption.
    - apply saveRawData_write_failure; assumption. }
  destruct (saveRawData data dir tool ps w) as [r w'].
  cbn [fst] in *. rewrite Hsave. reflexivity.
Qed.

(** Without an archive directory the text is produced whenever the
    limiter returns. *)
Lemma formatResponse_without_archive data options w r :
  nonEmpty (optionField options rawDataSaveDir) = None ->
  limitItems config data = Returns r ->
  formatResponse config data options w
  = (Returns {| content :=
                  [ {| type := "text";
                       text := Js.join JSON.LF (renderLines config options None r) |} ] |},
     w).
Proof.
  intros Hdir Hlim. unfold formatResponse. rewrite Hdir. cbn [bind].
  rewrite Hlim. reflexivity.
Qed.

End Renderer.

Lemma formatResponse_raises_archive_failure_witness :
  nonEmpty (optionField (archiveTo "/data/out") rawDataSaveDir) = Some "/data/out"
  /\ Fs.existsSync readOnlyWorld "/data/out" = false
  /\ mkdirError readOnlyWorld "/data/out" = Some (IOError "EACCES")
  /\ fst (formatResponse cfg10 (JObject [("id", JNumber 1)]) (archiveTo "/data/out")
            readOnlyWorld)
     = Throws (IOError "EACCES").
Proof.
  assert (A : nonEmpty (optionField (archiveTo "/data/out") rawDataSaveDir)
              = Some "/data/out") by reflexivity.
  assert (B : Fs.existsSync readOnlyWorld "/data/out" = false) by reflexivity.
  assert (C : mkdirError readOnlyWorld "/data/out" = Some (IOError "EACCES"))
    by reflexivity.
  exact (conj A (conj B (conj C
    (formatResponse_raises_archive_failure cfg10 (JObject [("id", JNumber 1)])
       (archiveTo "/data/out") "/data/out" readOnlyWorld (IOError "EACCES")
       A (or_introl (conj B C)))))).
Defined.

(** ** JSON text *)

Lemma isJson_array items : isJson (JArray items) = allJson items.
Proof. reflexivity. Qed.

Lemma isJson_object fields :
  isJson (JObject fields) = Obj.ordered fields && allJsonFields fields.
Proof. reflexivity. Qed.

Lemma fuelFor_array items : fuelFor (JArray items) = S (fuelForItems items).
Proof. reflexivity. Qed.

Lemma fuelFor_object fields : fuelFor (JObject fields) = S (fuelForFields fields).
Proof. reflexivity. Qed.

Lemma serialize_array gap indent items :
  JSON.serialize gap indent (JArray items) =
  let opening := if (gap =? EmptyString)%string then EmptyString
                 else JSON.LF ++ (indent ++ gap) in
  let closing := if (gap =? EmptyString)%string then EmptyString
                 else JSON.LF ++ indent in
  let partial := elementTexts gap (indent ++ gap) items in
  match partial with
  | [] => Some "[]"
  | _ => Some ("[" ++ opening ++ Js.join ("," ++ opening) partial ++ closing ++ "]")
  end.
Proof.
  cbn [JSON.serialize].
  assert (E : forall l,
             (fix each (l : list JsValue) : list string :=
                match l with
                | [] => []
                | x :: rest =>
                    match JSON.serialize gap (indent ++ gap) x with
                    | Some text => text
                    | None => "null"
                    end :: each rest
                end) l = elementTexts gap (indent ++ gap) l).
  { induction l as [|x l IH]; simpl; [reflexivity|]. now rewrite IH. }
  rewrite E. reflexivity.
Qed.

Lemma serialize_object gap indent fields :
  JSON.serialize gap indent (JObject fields) =
  let opening := if (gap =? EmptyString)%string then EmptyString
                 else JSON.LF ++ (indent ++ gap) in
  let closing := if (gap =? EmptyString)%string then EmptyString
                 else JSON.LF ++ indent in
  let partial := memberTexts gap (indent ++ gap) fields in
  match partial with
  | [] => Some "{}"
  | _ => Some ("{" ++ opening ++ Js.join ("," ++ opening) partial ++ closing ++ "}")
  end.
Proof.
  cbn [JSON.serialize].
  assert (E : forall l,
             (fix each (l : list (string * JsValue)) : list string :=
                match l with
                | [] => []
                | (key, x) :: rest =>
                    match JSON.serialize gap (indent ++ gap) x with
                    | Some text =>
                        (JSON.quote key
                           ++ (if (gap =? EmptyString)%string then ":" else ": ") ++ text)
                          :: each rest
                    | None => each rest
                    end
                end) l = memberTexts gap (indent ++ gap) l).
  { induction l as [|[k x] l IH]; simpl; [reflexivity|].
    destruct (JSON.serialize gap (indent ++ gap) x); [f_equal|]; exact IH. }
  rewrite E. reflexivity.
Qed.

(** *** String literals *)

Lemma parseString_quoteChar c s :
  JSON.parseString (JSON.quoteChar c ++ s)
  = ' (body, r) <- JSON.parseString s ;; Returns (String c body, r).
Proof. destruct c as [[] [] [] [] [] [] [] []]; reflexivity. Qed.

Lemma parseString_quoteBody s rest :
  JSON.parseString (JSON.quoteBody s ++ String JSON.DQ rest) = Returns (s, rest).
Proof.
  induction s as [|c s IH]; [reflexivity|].
  cbn [JSON.quoteBody]. rewrite append_assoc, parseString_quoteChar, IH.
  reflexivity.
Qed.

(** *** Number literals *)

Lemma digitOf_not_digit c : Obj.isDigit c = false -> JSON.digitOf c = None.
Proof.
  destruct c as [[] [] [] [] [] [] [] []]; intros H;
    first [reflexivity | discriminate H].
Qed.

Lemma endsNumber_no_digit c rest :
  endsNumber (String c rest) = true -> JSON.digitOf c = None.
Proof.
  unfold endsNumber. intros H. apply digitOf_not_digit.
  destruct (Obj.isDigit c); [discriminate H | reflexivity].
Qed.

Lemma parseDigits_stop rest :
  endsNumber rest = true -> JSON.parseDigits rest = (Decimal.Nil, rest).
Proof.
  destruct rest as [|c rest]; intros H; [reflexivity|].
  cbn [JSON.parseDigits]. rewrite (endsNumber_no_digit c rest H). reflexivity.
Qed.

Lemma parseDigits_string_of_uint u rest :
  endsNumber rest = true ->
  JSON.parseDigits (NilEmpty.string_of_uint u ++ rest) = (u, rest).
Proof.
  intros H. induction u; cbn [NilEmpty.string_of_uint];
    [ apply parseDigits_stop, H | .. ];
    change (String ?c ?s ++ rest) with (String c (s ++ rest));
    cbn [JSON.parseDigits]; rewrite IHu; reflexivity.
Qed.

Lemma to_uint_no_leading_zero p u : Pos.to_uint p <> Decimal.D0 u.
Proof.
  intros E.
  pose proof (DecimalPos.Unsigned.to_of (Pos.to_uint p)) as Hn.
  rewrite DecimalPos.Unsigned.of_to in Hn. cbn [N.to_uint] in Hn.
  rewrite E in Hn. unfold Decimal.unorm in Hn.
  destruct (Decimal.nzhead (Decimal.D0 u)) eqn:Hz;
    try (rewrite <- Hz in Hn; symmetry in Hn; exact (nzhead_nonzero _ _ Hn)).
  apply (DecimalPos.Unsigned.to_uint_nonzero p). rewrite E. exact Hn.
Qed.

Lemma endsNumber_not_fraction rest :
  endsNumber rest = true ->
  match rest with
  | String c _ => Ascii.eqb c "." || Ascii.eqb c "e" || Ascii.eqb c "E"
  | EmptyString => false
  end = false.
Proof.
  destruct rest as [|c rest]; [reflexivity|]. unfold endsNumber.
  destruct (Obj.isDigit c); cbn [orb negb]; [discriminate|].
  intros H. apply negb_true_iff in H. exact H.
Qed.

Lemma parseNumber_positive p rest :
  endsNumber rest = true ->
  JSON.parseNumber (NilEmpty.string_of_uint (Pos.to_uint p) ++ rest)
  = Returns (Z.pos p, rest)
  /\ JSON.parseNumber (String "-" (NilEmpty.string_of_uint (Pos.to_uint p) ++ rest))
     = Returns (Z.neg p, rest).
Proof.
  intros H.
  pose proof (DecimalPos.Unsigned.of_to p) as Hval.
  pose proof (DecimalPos.Unsigned.to_uint_nonnil p) as Hnil.
  pose proof (to_uint_no_leading_zero p) as Hzero.
  pose proof (endsNumber_not_fraction rest H) as Hfrac.
  assert (Hof : forall u, Pos.to_uint p = u -> Z.of_uint u = Z.pos p).
  { intros u <-. unfold Z.of_uint. rewrite Hval. reflexivity. }
  destruct (Pos.to_uint p) as [|u|u|u|u|u|u|u|u|u|u] eqn:E;
    [ contradiction | exfalso; exact (Hzero u eq_refl) | .. ];
    (split;
     [ cbn [NilEmpty.string_of_uint];
       change (String ?c ?s ++ rest) with (String c (s ++ rest));
       unfold JSON.parseNumber; cbn [Ascii.eqb Bool.eqb];
       cbn [JSON.parseDigits]; cbn [JSON.digitOf nat_of_ascii];
       rewrite parseDigits_string_of_uint by exact H
     | cbn [NilEmpty.string_of_uint];
       change (String ?c ?s ++ rest) with (String c (s ++ rest));
       unfold JSON.parseNumber; cbn [Ascii.eqb Bool.eqb];
       cbn [JSON.parseDigits]; cbn [JSON.digitOf nat_of_ascii];
       rewrite parseDigits_string_of_uint by exact H ]).
  all: match goal with
       | |- context [JSON.digitOf ?c] =>
           let r := eval vm_compute in (JSON.digitOf c) in
           change (JSON.digitOf c) with r
       end;
    cbv iota beta; rewrite Hfrac, (Hof _ eq_refl); reflexivity.
Qed.

Lemma string_of_uint_nonnil u :
  u <> Decimal.Nil -> NilZero.string_of_uint u = NilEmpty.string_of_uint u.
Proof. destruct u; intros H; [contradiction|reflexivity..]. Qed.

Lemma parseNumber_showZ n rest :
  endsNumber rest = true ->
  JSON.parseNumber (Js.showZ n ++ rest) = Returns (n, rest).
Proof.
  intros H. destruct n as [|p|p]; unfold Js.showZ; cbn [Z.to_int NilZero.string_of_int].
  - change (NilZero.string_of_uint Decimal.zero ++ rest) with (String "0" rest).
    unfold JSON.parseNumber. cbn [Ascii.eqb Bool.eqb JSON.parseDigits].
    change (JSON.digitOf "0") with (Some Decimal.D0).
    rewrite (parseDigits_stop rest H). cbv iota beta.
    rewrite (endsNumber_not_fraction rest H). reflexivity.
  - rewrite string_of_uint_nonnil by apply DecimalPos.Unsigned.to_uint_nonnil.
    apply parseNumber_positive, H.
  - rewrite string_of_uint_nonnil by apply DecimalPos.Unsigned.to_uint_nonnil.
    apply parseNumber_positive, H.
Qed.

Lemma string_of_uint_head u rest :
  u <> Decimal.Nil ->
  startsWith Obj.isDigit (NilEmpty.string_of_uint u ++ rest) = true.
Proof. destruct u; intros H; [contradiction|reflexivity..]. Qed.

Lemma showZ_head n rest : startsWith numberHead (Js.showZ n ++ rest) = true.
Proof.
  destruct n as [|p|p]; unfold Js.showZ; cbn [Z.to_int NilZero.string_of_int];
    [reflexivity | |reflexivity].
  rewrite string_of_uint_nonnil by apply DecimalPos.Unsigned.to_uint_nonnil.
  pose proof (string_of_uint_head (Pos.to_uint p) rest
                (DecimalPos.Unsigned.to_uint_nonnil p)) as Hd.
  destruct (NilEmpty.string_of_uint (Pos.to_uint p) ++ rest) as [|c s];
    [discriminate|].
  cbn [startsWith] in *. unfold numberHead. rewrite Hd. apply orb_true_r.
Qed.

Lemma numberHead_facts c :
  numberHead c = true ->
  JSON.isWs c = false /\ Ascii.eqb c "[" = false /\ Ascii.eqb c "{" = false
  /\ Ascii.eqb c JSON.DQ = false /\ Ascii.eqb c "]" = false.
Proof.
  destruct c as [[] [] [] [] [] [] [] []]; intros H;
    first [discriminate H | repeat split].
Qed.

(** *** Whitespace *)

Lemma allWs_append a b : allWs (a ++ b) = allWs a && allWs b.
Proof.
  induction a as [|c a IH]; [reflexivity|]. cbn. rewrite IH. apply andb_assoc.
Qed.

Lemma allWs_spaces n : allWs (JSON.spaces n) = true.
Proof. induction n as [|n IH]; [reflexivity|]. cbn. exact IH. Qed.

Lemma skipWs_allWs w s : allWs w = true -> JSON.skipWs (w ++ s) = JSON.skipWs s.
Proof.
  induction w as [|c w IH]; intros H; [reflexivity|].
  cbn in H. apply andb_true_iff in H as [Hc Hw].
  cbn. rewrite Hc. apply IH, Hw.
Qed.

Lemma skipWs_head ok s :
  startsWith ok s = true -> (forall c, ok c = true -> JSON.isWs c = false) ->
  JSON.skipWs s = s.
Proof.
  destruct s as [|c s]; intros H Hok; [discriminate|].
  cbn. rewrite (Hok c H). reflexivity.
Qed.

Lemma isWs_ends_number c rest : JSON.isWs c = true -> endsNumber (String c rest) = true.
Proof.
  destruct c as [[] [] [] [] [] [] [] []]; intros H;
    first [discriminate H | reflexivity].
Qed.

Lemma endsNumber_after_ws w c rest :
  allWs w = true -> endsNumber (String c rest) = true ->
  endsNumber (w ++ String c rest) = true.
Proof.
  destruct w as [|x w]; intros Hw Hc; [exact Hc|].
  cbn in Hw. apply andb_true_iff in Hw as [Hx _].
  exact (isWs_ends_number x _ Hx).
Qed.

Lemma parseValue_skips_ws fuel w s :
  allWs w = true -> JSON.parseValue fuel (w ++ s) = JSON.parseValue fuel s.
Proof.
  intros Hw. destruct fuel as [|fuel]; [reflexivity|].
  cbn [JSON.parseValue]. rewrite (skipWs_allWs w s Hw). reflexivity.
Qed.

(** *** Own properties in enumeration order *)

Ltac split_andb :=
  repeat match goal with
         | H : _ && _ = true |- _ => apply andb_true_iff in H; destruct H
         end.

Lemma get_app key a b :
  Obj.get key (a ++ b)%list
  = match Obj.get key a with Some v => Some v | None => Obj.get key b end.
Proof.
  induction a as [|[k v] a IH]; [reflexivity|].
  cbn. destruct (k =? key)%string; [reflexivity | exact IH].
Qed.

Lemma hasOwn_app key a b :
  Obj.hasOwn key (a ++ b)%list = Obj.hasOwn key a || Obj.hasOwn key b.
Proof.
  unfold Obj.hasOwn. rewrite get_app. destruct (Obj.get key a); reflexivity.
Qed.

Lemma ordered_app_left a b : Obj.ordered (a ++ b)%list = true -> Obj.ordered a = true.
Proof.
  induction a as [|[k v] a IH]; [reflexivity|].
  cbn. rewrite hasOwn_app, forallb_app, negb_orb.
  intros H. split_andb.
  repeat (apply andb_true_iff; split); auto.
Qed.

Lemma insertOwn_last key v a :
  forallb (fun e => negb (Obj.precedes key (fst e))) a = true ->
  Obj.insertOwn key v a = (a ++ [(key, v)])%list.
Proof.
  induction a as [|[k w] a IH]; [reflexivity|].
  cbn. intros H. apply andb_true_iff in H as [Hk Ha].
  apply negb_true_iff in Hk. rewrite Hk, (IH Ha). reflexivity.
Qed.

Lemma ordered_last key v a :
  Obj.ordered (a ++ [(key, v)])%list = true ->
  Obj.hasOwn key a = false
  /\ forallb (fun e => negb (Obj.precedes key (fst e))) a = true.
Proof.
  induction a as [|[k w] a IH]; [split; reflexivity|].
  cbn [app Obj.ordered]. rewrite hasOwn_app, forallb_app, negb_orb.
  cbn [forallb fst]. intros H. split_andb.
  destruct (IH ltac:(assumption)) as [Hown Hprec].
  match goal with
  | Hp : negb (Obj.precedes key k) = true |- _ => rename Hp into Hkk
  end.
  match goal with
  | Hn : negb (Obj.hasOwn k [(key, v)]) = true |- _ => rename Hn into Hne
  end.
  split.
  - unfold Obj.hasOwn in *. cbn [Obj.get] in *.
    rewrite (String.eqb_sym k key).
    destruct (key =? k)%string eqn:E; [discriminate Hne | exact Hown].
  - rewrite Hkk, Hprec. reflexivity.
Qed.

Lemma set_last key v a :
  Obj.ordered (a ++ [(key, v)])%list = true ->
  Obj.set key v a = (a ++ [(key, v)])%list.
Proof.
  intros H. destruct (ordered_last key v a H) as [Hown Hprec].
  unfold Obj.set. rewrite Hown. apply insertOwn_last, Hprec.
Qed.

Lemma defineAll_ordered fields acc :
  Obj.ordered (acc ++ fields)%list = true ->
  defineAll fields acc = (acc ++ fields)%list.
Proof.
  revert acc. induction fields as [|[k v] fields IH]; intros acc H.
  - cbn. now rewrite List.app_nil_r.
  - cbn [defineAll fold_left fst snd].
    replace (acc ++ (k, v) :: fields)%list with ((acc ++ [(k, v)]) ++ fields)%list in *
      by (rewrite <- List.app_assoc; reflexivity).
    rewrite (set_last k v acc (ordered_app_left _ _ H)).
    apply IH, H.
Qed.

(** *** Arrays *)

Lemma valueHead_not_ws c : valueHead c = true -> JSON.isWs c = false.
Proof.
  unfold valueHead. intros H. apply andb_true_iff in H as [H _].
  now apply negb_true_iff in H.
Qed.

Lemma valueHead_not_closing c : valueHead c = true -> Ascii.eqb c "]" = false.
Proof.
  unfold valueHead. intros H. apply andb_true_iff in H as [_ H].
  now apply negb_true_iff in H.
Qed.

Lemma parseElements_texts gap indent opening closing items :
  allWs opening = true -> allWs closing = true ->
  Forall (ReadsBackAt gap indent) items -> items <> [] ->
  forall fuel rest,
    (fuelForItems items <= fuel)%nat ->
    JSON.parseElements fuel
      (opening ++ Js.join (String "," opening) (elementTexts gap indent items)
         ++ closing ++ String "]" rest)
    = Returns (items, rest).
Proof.
  intros Hop Hcl Hall. induction Hall as [|x xs Hx Hxs IH]; intros Hne fuel rest Hfuel;
    [contradiction|].
  destruct Hx as (t & Ht & Hhead & Hparse).
  destruct fuel as [|fuel]; [cbn in Hfuel; lia|].
  cbn [fuelForItems] in Hfuel.
  cbn [elementTexts]. rewrite Ht.
  destruct xs as [|y ys].
  - cbn [elementTexts Js.join String.concat].
    cbn [JSON.parseElements].
    rewrite parseValue_skips_ws by exact Hop.
    rewrite Hparse; [| lia | apply endsNumber_after_ws; [exact Hcl | reflexivity]].
    cbn [bind]. rewrite skipWs_allWs by exact Hcl. reflexivity.
  - assert (Hsplit :
      Js.join (String "," opening) (t :: elementTexts gap indent (y :: ys))
        ++ closing ++ String "]" rest
      = t ++ String ","
            (opening ++ Js.join (String "," opening) (elementTexts gap indent (y :: ys))
               ++ closing ++ String "]" rest)).
    { cbn [elementTexts Js.join String.concat].
      rewrite !append_assoc. reflexivity. }
    rewrite Hsplit. cbn [JSON.parseElements].
    rewrite parseValue_skips_ws by exact Hop.
    rewrite Hparse; [| lia | reflexivity].
    cbn [bind JSON.skipWs].
    change (JSON.isWs ",") with false. cbv iota beta.
    change (Ascii.eqb "," ",") with true. cbv iota.
    rewrite IH; [reflexivity | discriminate | lia].
Qed.

(** *** Objects *)

Lemma quote_append key s :
  JSON.quote key ++ s = String JSON.DQ (JSON.quoteBody key ++ String JSON.DQ s).
Proof. unfold JSON.quote. cbn [append]. rewrite append_assoc. reflexivity. Qed.

Lemma parseMember_text gap t x fuel acc key R :
  (forall fuel rest,
      (fuelFor x <= fuel)%nat -> endsNumber rest = true ->
      JSON.parseValue fuel (t ++ rest) = Returns (x, rest)) ->
  (fuelFor x <= fuel)%nat -> endsNumber R = true ->
  JSON.parseMembers (S fuel) acc
    (String JSON.DQ
       (JSON.quoteBody key
          ++ String JSON.DQ ((if (gap =? EmptyString)%string then ":" else ": ") ++ t ++ R)))
  = match JSON.skipWs R with
    | String c r =>
        if Ascii.eqb c "," then JSON.parseMembers fuel (Obj.set key x acc) r
        else if Ascii.eqb c "}" then Returns (Obj.set key x acc, r)
        else JSON.syntaxError
    | EmptyString => JSON.syntaxError
    end.
Proof.
  intros Hparse Hfuel HR. cbn [JSON.parseMembers JSON.skipWs].
  change (JSON.isWs JSON.DQ) with false. cbv iota beta.
  change (Ascii.eqb JSON.DQ JSON.DQ) with true. cbv iota.
  rewrite parseString_quoteBody. cbn [bind].
  destruct (gap =? EmptyString)%string; cbn [append JSON.skipWs];
    change (JSON.isWs ":") with false; cbv iota beta;
    change (Ascii.eqb ":" ":") with true; cbv iota.
  - rewrite (Hparse fuel R Hfuel HR). reflexivity.
  - change (String " " (t ++ R)) with (" " ++ t ++ R).
    rewrite parseValue_skips_ws by reflexivity.
    rewrite (Hparse fuel R Hfuel HR). reflexivity.
Qed.

Lemma parseMembers_texts gap indent opening closing fields :
  allWs opening = true -> allWs closing = true ->
  Forall (fun e => ReadsBackAt gap indent (snd e)) fields -> fields <> [] ->
  forall fuel acc rest,
    (fuelForFields fields <= fuel)%nat ->
    JSON.parseMembers fuel acc
      (opening ++ Js.join (String "," opening) (memberTexts gap indent fields)
         ++ closing ++ String "}" rest)
    = Returns (defineAll fields acc, rest).
Proof.
  intros Hop Hcl Hall.
  induction Hall as [|[key x] xs Hx Hxs IH]; intros Hne fuel acc rest Hfuel;
    [contradiction|].
  destruct Hx as (t & Ht & Hhead & Hparse). cbn [snd] in *.
  destruct fuel as [|fuel]; [cbn in Hfuel; lia|].
  cbn [fuelForFields] in Hfuel.
  cbn [memberTexts]. rewrite Ht.
  assert (Hskip : forall s acc',
             JSON.parseMembers (S fuel) acc' (opening ++ s)
             = JSON.parseMembers (S fuel) acc' s).
  { intros s acc'. cbn [JSON.parseMembers].
    rewrite skipWs_allWs by exact Hop. reflexivity. }
  destruct xs as [|[key' y] ys].
  - cbn [memberTexts Js.join String.concat].
    rewrite append_assoc, quote_append, ?append_assoc.
    rewrite Hskip.
    rewrite (parseMember_text gap t x fuel acc key (closing ++ String "}" rest) Hparse);
      [| lia | apply endsNumber_after_ws; [exact Hcl | reflexivity]].
    rewrite skipWs_allWs by exact Hcl. reflexivity.
  - assert (Hsplit :
      Js.join (String "," opening)
        ((JSON.quote key ++ (if (gap =? EmptyString)%string then ":" else ": ") ++ t)
           :: memberTexts gap indent ((key', y) :: ys))
        ++ closing ++ String "}" rest
      = String JSON.DQ
          (JSON.quoteBody key
             ++ String JSON.DQ
                  ((if (gap =? EmptyString)%string then ":" else ": ") ++ t
                     ++ String ","
                          (opening
                             ++ Js.join (String "," opening)
                                  (memberTexts gap indent ((key', y) :: ys))
                             ++ closing ++ String "}" rest)))).
    { inversion Hxs as [|? ? Hy _]; subst. destruct Hy as (ty & Hty & _).
      cbn [snd] in Hty. cbn [memberTexts]. rewrite Hty.
      cbn [Js.join String.concat].
      rewrite !append_assoc, quote_append, ?append_assoc. reflexivity. }
    rewrite Hsplit, Hskip.
    rewrite (parseMember_text gap t x fuel acc key _ Hparse); [| lia | reflexivity].
    cbn [JSON.skipWs]. change (JSON.isWs ",") with false. cbv iota beta.
    change (Ascii.eqb "," ",") with true. cbv iota.
    rewrite IH; [reflexivity | discriminate | lia].
Qed.

(** *** Every JSON value is read back from its text *)

Lemma numberHead_valueHead c : numberHead c = true -> valueHead c = true.
Proof.
  intros H. destruct (numberHead_facts c H) as (Hws & _ & _ & _ & Hcl).
  unfold valueHead. now rewrite Hws, Hcl.
Qed.

Lemma join_head sep t ts X : exists R, Js.join sep (t :: ts) ++ X = t ++ R.
Proof.
  destruct ts as [|t' ts]; cbn [Js.join String.concat].
  - exists X. reflexivity.
  - eexists. rewrite append_assoc. reflexivity.
Qed.

Lemma allJson_Forall (Q : JsValue -> Prop) items :
  Forall (fun x => isJson x = true -> Q x) items ->
  allJson items = true -> Forall Q items.
Proof.
  induction 1 as [|x xs Hx _ IH]; intros H; [constructor|].
  cbn in H. apply andb_true_iff in H as [H1 H2]. constructor; auto.
Qed.

Lemma allJsonFields_Forall (Q : JsValue -> Prop) fields :
  Forall (fun e => isJson (snd e) = true -> Q (snd e)) fields ->
  allJsonFields fields = true -> Forall (fun e => Q (snd e)) fields.
Proof.
  induction 1 as [|[k x] xs Hx _ IH]; intros H; [constructor|].
  cbn in H. apply andb_true_iff in H as [H1 H2]. constructor; auto.
Qed.

Lemma layout_allWs gap indent :
  allWs gap = true -> allWs indent = true ->
  allWs (if (gap =? EmptyString)%string then EmptyString else JSON.LF ++ indent) = true.
Proof.
  intros Hg Hi. destruct (gap =? EmptyString)%string; [reflexivity|].
  cbn. exact Hi.
Qed.

Lemma reads_back_scalar v text :
  (forall gap indent, JSON.serialize gap indent v = Some text) ->
  (forall rest, startsWith valueHead (text ++ rest) = true) ->
  (forall fuel rest, endsNumber rest = true ->
                     JSON.parseValue (S fuel) (text ++ rest) = Returns (v, rest)) ->
  fuelFor v = 1%nat ->
  ReadsBack v.
Proof.
  intros Hser Hhead Hparse Hfuel gap indent _ _. exists text.
  split; [apply Hser | split; [exact Hhead|]].
  intros fuel rest Hle Hrest. rewrite Hfuel in Hle.
  destruct fuel as [|fuel]; [lia|]. apply Hparse, Hrest.
Qed.

Lemma parseValue_number n fuel rest :
  endsNumber rest = true ->
  JSON.parseValue (S fuel) (Js.showZ n ++ rest) = Returns (JNumber n, rest).
Proof.
  intros Hrest. pose proof (showZ_head n rest) as Hhead.
  pose proof (parseNumber_showZ n rest Hrest) as Hnum.
  destruct (Js.showZ n ++ rest) as [|c s]; [discriminate|].
  cbn [startsWith] in Hhead.
  destruct (numberHead_facts c Hhead) as (Hws & Hb & Hc & Hq & _).
  cbn [JSON.parseValue JSON.skipWs]. rewrite Hws, Hb, Hc, Hq.
  fold (numberHead c). rewrite Hhead, Hnum. reflexivity.
Qed.

Theorem isJson_reads_back v : isJson v = true -> ReadsBack v.
Proof.
  induction v as [| | b | n | s | items IH | fields IH] using JsValue_ind;
    intros Hjson.
  - discriminate.
  - apply (reads_back_scalar JNull "null"); try reflexivity.
    intros fuel rest _. destruct rest; reflexivity.
  - destruct b.
    + apply (reads_back_scalar (JBool true) "true"); try reflexivity.
      intros fuel rest _. destruct rest; reflexivity.
    + apply (reads_back_scalar (JBool false) "false"); try reflexivity.
      intros fuel rest _. destruct rest; reflexivity.
  - apply (reads_back_scalar (JNumber n) (Js.showZ n)); try reflexivity.
    + intros rest. pose proof (showZ_head n rest) as H.
      destruct (Js.showZ n ++ rest); [discriminate|].
      apply numberHead_valueHead, H.
    + intros fuel rest. apply parseValue_number.
  - apply (reads_back_scalar (JString s) (JSON.quote s)); try reflexivity.
    intros fuel rest _. rewrite quote_append.
    cbn [JSON.parseValue JSON.skipWs]. change (JSON.isWs JSON.DQ) with false.
    cbv iota beta.
    change (Ascii.eqb JSON.DQ "[") with false.
    change (Ascii.eqb JSON.DQ "{") with false.
    change (Ascii.eqb JSON.DQ JSON.DQ) with true. cbv iota.
    rewrite parseString_quoteBody. reflexivity.
  - intros gap indent Hgap Hindent.
    assert (Hinner : allWs (indent ++ gap) = true)
      by (rewrite allWs_append, Hgap, Hindent; reflexivity).
    rewrite isJson_array in Hjson.
    pose proof (allJson_Forall ReadsBack items IH Hjson) as Hall.
    assert (Hat : Forall (ReadsBackAt gap (indent ++ gap)) items).
    { eapply Forall_impl; [|exact Hall]. intros x Hx. apply Hx; assumption. }
    unfold ReadsBackAt. rewrite serialize_array. cbv zeta.
    set (opening := if (gap =? EmptyString)%string then EmptyString
                    else JSON.LF ++ (indent ++ gap)).
    set (closing := if (gap =? EmptyString)%string then EmptyString
                    else JSON.LF ++ indent).
    assert (Hop : allWs opening = true) by (apply layout_allWs; assumption).
    assert (Hcl : allWs closing = true) by (apply layout_allWs; assumption).
    destruct items as [|x xs].
    + exists "[]". split; [reflexivity|]. split; [reflexivity|].
      intros fuel rest Hfuel _. destruct fuel as [|fuel]; [cbn in Hfuel; lia|].
      reflexivity.
    + pose proof (parseElements_texts gap (indent ++ gap) opening closing (x :: xs)
                    Hop Hcl Hat ltac:(discriminate)) as Helems.
      inversion Hat as [|? ? Hx _]; subst. destruct Hx as (t & Ht & Hhead & _).
      cbn [elementTexts] in *. rewrite Ht in *.
      eexists. split; [reflexivity|]. split; [reflexivity|].
      intros fuel rest Hfuel _. rewrite fuelFor_array in Hfuel.
      destruct fuel as [|fuel]; [lia|].
      change ("," ++ opening) with (String "," opening).
      cbn [append]. rewrite !append_assoc.
      change ("]" ++ rest) with (String "]" rest).
      cbn [JSON.parseValue JSON.skipWs]. change (JSON.isWs "[") with false.
      cbv iota beta. change (Ascii.eqb "[" "[") with true. cbv iota.
      rewrite (skipWs_allWs opening _ Hop).
      destruct (join_head (String "," opening) t (elementTexts gap (indent ++ gap) xs)
                  (closing ++ String "]" rest)) as [R HR].
      rewrite HR. pose proof (Hhead R) as HheadR.
      rewrite <- HR in *.
      rewrite (skipWs_head valueHead _ HheadR valueHead_not_ws).
      destruct (Js.join (String "," opening) (t :: elementTexts gap (indent ++ gap) xs)
                  ++ closing ++ String "]" rest) as [|c' r'] eqn:EJ; [discriminate|].
      cbn [startsWith] in HheadR.
      rewrite (valueHead_not_closing c' HheadR).
      rewrite <- EJ, Helems by lia. reflexivity.
  - intros gap indent Hgap Hindent.
    assert (Hinner : allWs (indent ++ gap) = true)
      by (rewrite allWs_append, Hgap, Hindent; reflexivity).
    rewrite isJson_object in Hjson. apply andb_true_iff in Hjson as [Hord Hjson].
    pose proof (allJsonFields_Forall ReadsBack fields IH Hjson) as Hall.
    assert (Hat : Forall (fun e => ReadsBackAt gap (indent ++ gap) (snd e)) fields).
    { eapply Forall_impl; [|exact Hall]. intros e He. apply He; assumption. }
    unfold ReadsBackAt. rewrite serialize_object. cbv zeta.
    set (opening := if (gap =? EmptyString)%string then EmptyString
                    else JSON.LF ++ (indent ++ gap)).
    set (closing := if (gap =? EmptyString)%string then EmptyString
                    else JSON.LF ++ indent).
    assert (Hop : allWs opening = true) by (apply layout_allWs; assumption).
    assert (Hcl : allWs closing = true) by (apply layout_allWs; assumption).
    destruct fields as [|[key x] xs].
    + exists "{}". split; [reflexivity|]. split; [reflexivity|].
      intros fuel rest Hfuel _. destruct fuel as [|fuel]; [cbn in Hfuel; lia|].
      reflexivity.
    + pose proof (parseMembers_texts gap (indent ++ gap) opening closing ((key, x) :: xs)
                    Hop Hcl Hat ltac:(discriminate)) as Hmembers.
      inversion Hat as [|? ? Hx _]; subst. destruct Hx as (t & Ht & _ & _).
      cbn [snd] in Ht. cbn [memberTexts] in *. rewrite Ht in *.
      eexists. split; [reflexivity|]. split; [reflexivity|].
      intros fuel rest Hfuel _. rewrite fuelFor_object in Hfuel.
      destruct fuel as [|fuel]; [lia|].
      change ("," ++ opening) with (String "," opening).
      cbn [append]. rewrite !append_assoc.
      change ("}" ++ rest) with (String "}" rest).
      cbn [JSON.parseValue JSON.skipWs]. change (JSON.isWs "{") with false.
      cbv iota beta.
      change (Ascii.eqb "{" "[") with false.
      change (Ascii.eqb "{" "{") with true. cbv iota.
      rewrite (skipWs_allWs opening _ Hop).
      rewrite Hmembers by lia.
      rewrite (defineAll_ordered ((key, x) :: xs) [] Hord).
      destruct (join_head (String "," opening)
                  (JSON.quote key
                     ++ (if (gap =? EmptyString)%string then ":" else ": ") ++ t)
                  (memberTexts gap (indent ++ gap) xs)
                  (closing ++ String "}" rest)) as [R HR].
      rewrite HR, append_assoc, quote_append.
      cbn [JSON.skipWs]. change (JSON.isWs JSON.DQ) with false. cbv iota.
      change (Ascii.eqb JSON.DQ "}") with false. cbv iota.
      reflexivity.
Qed.

(** *** Enough fuel: the parser nests no deeper than the text is long *)

Lemma fuelForItems_le_length gap indent sep items :
  (1 <= String.length sep)%nat ->
  Forall (fun x => exists t, JSON.serialize gap indent x = Some t
                             /\ (fuelFor x <= String.length t)%nat) items ->
  (fuelForItems items
   <= S (String.length (Js.join sep (elementTexts gap indent items))))%nat.
Proof.
  intros Hsep Hall. induction Hall as [|x xs (t & Ht & Hx) Hxs IH]; [cbn; lia|].
  cbn [fuelForItems elementTexts]. rewrite Ht.
  destruct xs as [|y ys].
  - cbn. lia.
  - cbn [elementTexts] in *. cbn [Js.join String.concat] in *.
    rewrite !length_append. cbn [fuelForItems] in *. lia.
Qed.

Lemma fuelForFields_le_length gap indent sep fields :
  (1 <= String.length sep)%nat ->
  Forall (fun e => exists t, JSON.serialize gap indent (snd e) = Some t
                             /\ (fuelFor (snd e) <= String.length t)%nat) fields ->
  (fuelForFields fields
   <= S (String.length (Js.join sep (memberTexts gap indent fields))))%nat.
Proof.
  intros Hsep Hall. induction Hall as [|[k x] xs (t & Ht & Hx) Hxs IH]; [cbn; lia|].
  cbn [snd] in *. cbn [fuelForFields memberTexts]. rewrite Ht.
  destruct xs as [|[k' y] ys].
  - cbn [memberTexts Js.join String.concat fuelForFields].
    rewrite !length_append. lia.
  - inversion Hxs as [|? ? (ty & Hty & _) _]; subst. cbn [snd] in Hty.
    cbn [memberTexts] in *. rewrite Hty in *. cbn [Js.join String.concat] in *.
    rewrite !length_append. cbn [fuelForFields] in *.
    lia.
Qed.

Lemma serialize_length v :
  isJson v = true ->
  forall gap indent,
  exists t, JSON.serialize gap indent v = Some t
            /\ (fuelFor v <= String.length t)%nat.
Proof.
  induction v as [| | b | n | s | items IH | fields IH] using JsValue_ind;
    intros Hjson gap indent.
  - discriminate.
  - exists "null". split; [reflexivity | cbn; lia].
  - destruct b; eexists; (split; [reflexivity | cbn; lia]).
  - exists (Js.showZ n). split; [reflexivity|].
    pose proof (showZ_head n EmptyString) as H. rewrite append_empty_r in H.
    destruct (Js.showZ n); [discriminate | cbn; lia].
  - exists (JSON.quote s). split; [reflexivity | cbn; lia].
  - rewrite isJson_array in Hjson.
    pose proof (allJson_Forall _ items IH Hjson) as Hall.
    assert (Hat : Forall (fun x => exists t,
                            JSON.serialize gap (indent ++ gap) x = Some t
                            /\ (fuelFor x <= String.length t)%nat) items).
    { eapply Forall_impl; [|exact Hall]. intros x Hx. apply Hx. }
    rewrite serialize_array, fuelFor_array. cbv zeta.
    set (opening := if (gap =? EmptyString)%string then EmptyString
                    else JSON.LF ++ (indent ++ gap)).
    pose proof (fuelForItems_le_length gap (indent ++ gap) (String "," opening) items
                  ltac:(cbn; lia) Hat) as Hlen.
    destruct items as [|x xs]; [exists "[]"; split; [reflexivity | cbn; lia]|].
    cbn [elementTexts] in *. eexists. split; [reflexivity|].
    cbn [String.length append]. rewrite !length_append. cbn [String.length]. lia.
  - rewrite isJson_object in Hjson. apply andb_true_iff in Hjson as [_ Hjson].
    pose proof (allJsonFields_Forall
                  (fun v => forall gap indent, exists t,
                       JSON.serialize gap indent v = Some t
                       /\ (fuelFor v <= String.length t)%nat)
                  fields IH Hjson) as Hall.
    assert (Hat : Forall (fun e => exists t,
                            JSON.serialize gap (indent ++ gap) (snd e) = Some t
                            /\ (fuelFor (snd e) <= String.length t)%nat) fields).
    { eapply Forall_impl; [|exact Hall]. intros x Hx. apply Hx. }
    rewrite serialize_object, fuelFor_object. cbv zeta.
    set (opening := if (gap =? EmptyString)%string then EmptyString
                    else JSON.LF ++ (indent ++ gap)).
    pose proof (fuelForFields_le_length gap (indent ++ gap) (String "," opening) fields
                  ltac:(cbn; lia) Hat) as Hlen.
    destruct fields as [|[k x] xs]; [exists "{}"; split; [reflexivity | cbn; lia]|].
    inversion Hat as [|? ? (t & Ht & _) _]; subst. cbn [snd] in Ht.
    cbn [memberTexts] in *. rewrite Ht in *. eexists. split; [reflexivity|].
    cbn [String.length append]. rewrite !length_append. cbn [String.length]. lia.
Qed.

(** [JSON.parse] reads back what [JSON.stringify] wrote, with or without
    indentation. *)
Theorem parse_stringify v space :
  isJson v = true ->
  exists text, JSON.stringify v space = Some text /\ JSON.parse text = Returns v.
Proof.
  intros Hjson. unfold JSON.stringify.
  destruct (isJson_reads_back v Hjson (JSON.spaces (Nat.min space 10)) EmptyString
              (allWs_spaces _) eq_refl) as (text & Htext & _ & Hparse).
  destruct (serialize_length v Hjson (JSON.spaces (Nat.min space 10)) EmptyString)
    as (text' & Htext' & Hlen).
  rewrite Htext in Htext'. injection Htext' as <-.
  exists text. split; [exact Htext|].
  unfold JSON.parse.
  specialize (Hparse (S (String.length text)) EmptyString ltac:(lia) eq_refl).
  rewrite append_empty_r in Hparse. rewrite Hparse. reflexivity.
Qed.

Corollary clone_json v : isJson v = true -> JSON.clone v = Returns v.
Proof.
  intros Hjson. unfold JSON.clone.
  destruct (parse_stringify v 0 Hjson) as (text & -> & Hparse). exact Hparse.
Qed.

(** ** The archive *)

Lemma lookup_written file content fs :
  Fs.lookup file ((file, content) :: fs) = Some content.
Proof. cbn. rewrite String.eqb_refl. reflexivity. Qed.





(** ** What the locator reports *)

Lemma find_object config fields pathStr :
  findLargeArrayField config (JObject fields) pathStr
  = scanFields config (JObject fields) pathStr fields.
Proof. reflexivity. Qed.

Lemma hasOwn_In key v fields : In (key, v) fields -> Obj.hasOwn key fields = true.
Proof.
  unfold Obj.hasOwn. induction fields as [|[k w] rest IH]; intros H; [contradiction|].
  cbn. destruct (k =? key)%string eqn:E; [reflexivity|].
  destruct H as [H | H]; [|exact (IH H)].
  injection H as -> ->. rewrite String.eqb_refl in E. discriminate.
Qed.

Lemma get_unique key v fields :
  Obj.ordered fields = true -> In (key, v) fields -> Obj.get key fields = Some v.
Proof.
  induction fields as [|[k w] rest IH]; intros Hord Hin; [contradiction|].
  cbn in Hord. split_andb. cbn.
  destruct Hin as [Hin | Hin].
  - injection Hin as -> ->. now rewrite String.eqb_refl.
  - destruct (k =? key)%string eqn:E.
    + apply String.eqb_eq in E. subst k.
      rewrite (hasOwn_In key v rest Hin) in *. discriminate.
    + apply IH; assumption.
Qed.

Lemma scan_sound config parent pathStr fields entries :
  Obj.ordered fields = true -> parent <> JNull ->
  (forall e, In e entries -> In e fields) ->
  Forall (fun e => isJson (snd e) = true ->
                   forall p r, findLargeArrayField config (snd e) p = Some r ->
                               exists keys, Located config (snd e) p r keys) entries ->
  allJsonFields entries = true ->
  forall r, scanFields config parent pathStr entries = Some r ->
            exists keys, keys <> [] /\ Located config (JObject fields) pathStr r keys.
Proof.
  intros Hord Hparent Hincl Hall.
  induction Hall as [|[key value] rest Hvalue _ IH]; intros Hjson r Hscan;
    [discriminate|].
  cbn in Hjson. apply andb_true_iff in Hjson as [Hjv Hjrest].
  assert (Hget : Obj.get key fields = Some value)
    by (apply get_unique; [exact Hord | apply Hincl; left; reflexivity]).
  specialize (IH (fun e H => Hincl e (or_intror H)) Hjrest).
  cbn [snd] in Hvalue. cbn [scanFields] in Hscan. fold (scanFields config parent pathStr) in Hscan.
  destruct value as [| | | | | items | inner]; try (exact (IH r Hscan)).
  - destruct (exceeds config items) eqn:E; [|exact (IH r Hscan)].
    injection Hscan as <-. exists [key]. split; [discriminate|].
    unfold Located. cbn [valueAt array fieldPath parentObj pathFrom].
    rewrite Hget. repeat split; try assumption; try discriminate.
    intros Hn. contradiction.
  - destruct (findLargeArrayField config (JObject inner) _) as [found|] eqn:Efound;
      [|exact (IH r Hscan)].
    injection Hscan as <-.
    destruct (Hvalue Hjv _ _ Efound) as (keys & Hat & Hpath & Hex & Hnull).
    destruct keys as [|k m]; [discriminate Hat|].
    exists (key :: k :: m). split; [discriminate|].
    unfold Located. cbn [valueAt]. rewrite Hget.
    repeat split; try assumption; try discriminate.
    intros Hn. apply Hnull in Hn. discriminate.
Qed.

Lemma find_sound config data :
  isJson data = true ->
  forall pathStr r,
    findLargeArrayField config data pathStr = Some r ->
    exists keys, Located config data pathStr r keys.
Proof.
  induction data as [| | b | n | s | items IH | fields IH] using JsValue_ind;
    intros Hjson pathStr r Hfind;
    try (rewrite find_scalar in Hfind by reflexivity; discriminate).
  - rewrite find_array in Hfind.
    destruct (exceeds config items) eqn:E; [|discriminate].
    injection Hfind as <-. exists []. unfold Located. cbn.
    repeat split; assumption || reflexivity.
  - rewrite find_object in Hfind. rewrite isJson_object in Hjson.
    apply andb_true_iff in Hjson as [Hord Hjson].
    destruct (scan_sound config (JObject fields) pathStr fields fields Hord
                ltac:(discriminate) (fun e H => H) IH Hjson r Hfind)
      as (keys & _ & Hloc).
    exists keys. exact Hloc.
Qed.

(** ** The limited copy *)

Lemma get_replaceOwn_same key x y fields :
  Obj.get key fields = Some y -> Obj.get key (Obj.replaceOwn key x fields) = Some x.
Proof.
  induction fields as [|[k w] rest IH]; intros H; [discriminate|].
  cbn in *. destruct (k =? key)%string eqn:E; cbn; rewrite E; [reflexivity|].
  apply IH, H.
Qed.

Lemma get_replaceOwn_other key other x fields :
  key <> other -> Obj.get other (Obj.replaceOwn key x fields) = Obj.get other fields.
Proof.
  intros Hne. induction fields as [|[k w] rest IH]; [reflexivity|].
  cbn. destruct (k =? key)%string eqn:E; cbn.
  - apply String.eqb_eq in E. subst k.
    destruct (key =? other)%string eqn:E'; [|reflexivity].
    apply String.eqb_eq in E'. contradiction.
  - rewrite IH. reflexivity.
Qed.

Lemma keys_replaceOwn key x fields :
  Obj.keys (Obj.replaceOwn key x fields) = Obj.keys fields.
Proof.
  induction fields as [|[k w] rest IH]; [reflexivity|].
  cbn. destruct (k =? key)%string; cbn; [reflexivity|].
  unfold Obj.keys in IH. now rewrite IH.
Qed.

(** The field under [keys] holds the first [n] elements of the source
    array. *)
Lemma valueAt_cutAt_same n keys v items :
  valueAt keys v = Some (JArray items) ->
  valueAt keys (cutAt n keys v) = Some (JArray (Js.slice0 n items)).
Proof.
  revert v. induction keys as [|k m IH]; intros v H.
  - cbn in *. injection H as ->. reflexivity.
  - cbn in H. destruct v as [| | | | | |fields]; try discriminate.
    cbn [cutAt]. destruct (Obj.get k fields) as [child|] eqn:E; [|discriminate].
    cbn [valueAt]. rewrite (get_replaceOwn_same k _ child fields E).
    apply IH, H.
Qed.

(** Every position that parts ways with [keys] holds what it held. *)
Lemma valueAt_cutAt_other n keys others v :
  Diverge keys others -> valueAt others (cutAt n keys v) = valueAt others v.
Proof.
  intros Hd. revert v. induction Hd as [k k' m m' Hne | k m m' _ IH]; intros v.
  - destruct v as [| | | | | |fields]; try reflexivity.
    cbn [cutAt]. destruct (Obj.get k fields) as [child|] eqn:E; [|reflexivity].
    cbn [valueAt]. rewrite (get_replaceOwn_other k k' _ fields Hne). reflexivity.
  - destruct v as [| | | | | |fields]; try reflexivity.
    cbn [cutAt]. destruct (Obj.get k fields) as [child|] eqn:E.
    + cbn [valueAt]. rewrite (get_replaceOwn_same k _ child fields E), E. apply IH.
    + reflexivity.
Qed.

Lemma assignAt_cutAt n keys data items :
  keys <> [] -> valueAt keys data = Some (JArray items) ->
  assignAt (removelast keys) (last keys EmptyString) (JArray (Js.slice0 n items)) data
  = Returns (cutAt n keys data).
Proof.
  revert data. induction keys as [|k m IH]; intros data Hne Hat; [contradiction|].
  cbn [valueAt] in Hat. destruct data as [| | | | | |fields]; try discriminate.
  destruct (Obj.get k fields) as [child|] eqn:E; [|discriminate].
  destruct m as [|k' m'].
  - cbn in Hat. injection Hat as ->.
    cbn [removelast last assignAt setProp cutAt]. rewrite E.
    unfold Obj.set, Obj.hasOwn. rewrite E. reflexivity.
  - change (removelast (k :: k' :: m')) with (k :: removelast (k' :: m')).
    change (last (k :: k' :: m') EmptyString) with (last (k' :: m') EmptyString).
    cbn [assignAt getProp]. rewrite E. cbn [bind].
    rewrite (IH child ltac:(discriminate) Hat). cbn [bind cutAt]. rewrite E.
    reflexivity.
Qed.

(** The limiter is right whenever splitting the reported path on the
    separator gives back the keys that lead to the located field. *)
Theorem limitItems_replaces_located_field config data r keys :
  isJson data = true ->
  findLargeArrayField config data EmptyString = Some r ->
  Located config data EmptyString r keys -> keys <> [] ->
  Js.split "." (fieldPath r) = keys ->
  limitItems config data
  = Returns {| limited := cutAt (maxItemsForContext config) keys data;
               originalCount := Z.of_nat (List.length (array r));
               wasLimited := true;
               limitedField := Some (fieldPath r) |}.
Proof.
  intros Hjson Hfind (Hat & Hpath & Hex & Hnull) Hne Hsplit.
  assert (Hparent : parentObj r <> JNull) by (intros H; apply Hnull in H; contradiction).
  assert (Htruthy : Js.truthy data = true).
  { destruct keys as [|k m]; [contradiction|].
    destruct data; try discriminate Hat; reflexivity. }
  unfold limitItems, limitItemsIn. cbv zeta. cbn [load argument]. rewrite Htruthy, Hfind.
  cbn [negb]. rewrite (clone_json data Hjson).
  unfold assignThrough. cbn [load store limitedData argument].
  rewrite Hsplit, (assignAt_cutAt _ keys data (array r) Hne Hat).
  destruct (parentObj r); try reflexivity. contradiction.
Qed.

(** *** Reported paths that split back into their keys *)

Lemma dotFree_cons c key :
  dotFree (String c key) = true -> Ascii.eqb c "." = false /\ dotFree key = true.
Proof.
  unfold dotFree. cbn [Js.includes prefix]. intros H.
  apply negb_true_iff, orb_false_iff in H as [Hhead Htail].
  split; [|now rewrite Htail].
  destruct (Ascii.eqb c ".") eqn:E; [|reflexivity].
  apply Ascii.eqb_eq in E. subst c.
  destruct (ascii_dec "." "."); [|contradiction].
  destruct key; discriminate Hhead.
Qed.

Lemma split_dotFree_prefix key s :
  dotFree key = true ->
  Js.split "." (key ++ String "." s) = key :: Js.split "." s.
Proof.
  induction key as [|c key IH]; intros H; [reflexivity|].
  destruct (dotFree_cons c key H) as [Hc Hkey].
  cbn [append Js.split]. rewrite Hc, (IH Hkey). reflexivity.
Qed.

Lemma split_dotFree key : dotFree key = true -> Js.split "." key = [key].
Proof.
  induction key as [|c key IH]; intros H; [reflexivity|].
  destruct (dotFree_cons c key H) as [Hc Hkey].
  cbn [Js.split]. rewrite Hc, (IH Hkey). reflexivity.
Qed.

Lemma split_join keys :
  keys <> [] -> Forall (fun k => dotFree k = true) keys ->
  Js.split "." (Js.join "." keys) = keys.
Proof.
  intros Hne Hall. induction Hall as [|k m Hk Hm IH]; [contradiction|].
  destruct m as [|k' m'].
  - cbn. apply split_dotFree, Hk.
  - change (Js.join "." (k :: k' :: m')) with (k ++ String "." (Js.join "." (k' :: m'))).
    rewrite (split_dotFree_prefix k _ Hk), IH by discriminate. reflexivity.
Qed.

Lemma pathFrom_join pathStr keys :
  pathStr <> EmptyString -> pathFrom pathStr keys = Js.join "." (pathStr :: keys).
Proof.
  revert pathStr. induction keys as [|k m IH]; intros pathStr Hne; [reflexivity|].
  cbn [pathFrom]. destruct (pathStr =? EmptyString)%string eqn:E;
    [apply String.eqb_eq in E; contradiction|].
  rewrite IH by (destruct pathStr; [contradiction | discriminate]).
  destruct m as [|k' m']; cbn [Js.join String.concat];
    rewrite ?append_assoc; reflexivity.
Qed.

Lemma split_pathFrom keys :
  keys <> [] -> Forall (fun k => dotFree k = true) keys ->
  hd EmptyString keys <> EmptyString \/ tl keys = [] ->
  Js.split "." (pathFrom EmptyString keys) = keys.
Proof.
  intros Hne Hall Hhead. destruct keys as [|k m]; [contradiction|].
  cbn [pathFrom String.eqb hd tl] in *.
  destruct (string_dec k EmptyString) as [-> | Hk].
  - destruct Hhead as [Hhead | ->]; [contradiction | reflexivity].
  - rewrite pathFrom_join by exact Hk. apply split_join; [discriminate | exact Hall].
Qed.

(** The limiter is right on every JSON value in which no key on the way
    to the located field contains the separator and the first key is not
    empty. *)
Corollary limitItems_replaces_field_under_plain_keys config data r keys :
  isJson data = true ->
  findLargeArrayField config data EmptyString = Some r ->
  Located config data EmptyString r keys -> keys <> [] ->
  Forall (fun k => dotFree k = true) keys ->
  hd EmptyString keys <> EmptyString \/ tl keys = [] ->
  limitItems config data
  = Returns {| limited := cutAt (maxItemsForContext config) keys data;
               originalCount := Z.of_nat (List.length (array r));
               wasLimited := true;
               limitedField := Some (fieldPath r) |}.
Proof.
  intros Hjson Hfind Hloc Hne Hplain Hhead.
  apply (limitItems_replaces_located_field config data r keys); try assumption.
  destruct Hloc as (_ & Hpath & _). rewrite Hpath.
  destruct keys as [|k m]; [contradiction|].
  apply split_pathFrom; assumption.
Qed.

Example limitItems_nested_sample :
  limitItems cfg10
    (JObject [ ("meta", JObject [("total", JNumber 12); ("page", JNumber 1)]);
               ("response", JObject [("items", fill 12 (item 0));
                                     ("status", JString "success")]) ])
  = Returns {| limited :=
                 JObject [ ("meta", JObject [("total", JNumber 12); ("page", JNumber 1)]);
                           ("response", JObject [("items", fill 10 (item 0));
                                                 ("status", JString "success")]) ];
               originalCount := 12; wasLimited := true;
               limitedField := Some "response.items" |}.
Proof. vm_compute. reflexivity. Qed.

(** ** The order of the search *)

(** A depth-1 oversized array is the match when nothing declared before it
    is reported: no earlier sibling is an oversized array or an object in
    which the locator finds one. *)
Lemma find_depth_one_after_quiet_siblings config before key items after :
  (forall k v, In (k, v) before ->
               forall p, findLargeArrayField config v p = None) ->
  exceeds config items = true ->
  option_map fieldPath
    (findLargeArrayField config
       (JObject (before ++ (key, JArray items) :: after)%list) EmptyString)
  = Some key.
Proof.
  intros Hquiet Hex. rewrite find_object.
  generalize (JObject (before ++ (key, JArray items) :: after)%list) as parent.
  intros parent. induction before as [|[k v] rest IH].
  - cbn. rewrite Hex. reflexivity.
  - specialize (IH (fun k' v' H => Hquiet k' v' (or_intror H))).
    pose proof (Hquiet k v (or_introl eq_refl)) as Hv.
    cbn [app scanFields]. fold (scanFields config parent EmptyString).
    destruct v as [| | | | | inner | inner]; try exact IH.
    + specialize (Hv EmptyString). rewrite find_array in Hv.
      destruct (exceeds config inner); [discriminate | exact IH].
    + rewrite Hv. exact IH.
Qed.

(** An object declared before it that holds an oversized array wins
    over the depth-1 field. *)
Lemma find_descends_into_earlier_object config key inner found rest :
  findLargeArrayField config (JObject inner) key = Some found ->
  findLargeArrayField config (JObject ((key, JObject inner) :: rest)) EmptyString
  = Some found.
Proof.
  intros Hfound. rewrite find_object. cbn [scanFields String.eqb].
  rewrite Hfound. reflexivity.
Qed.

(** ** The unit tests of the repository, replayed on the embedding *)

Example test_formatFileSize :
  map formatFileSize [500; 1024; 2560; 1024 * 1024; 2621440]
  = ["500 B"; "1.0 KB"; "2.5 KB"; "1.0 MB"; "2.5 MB"].
Proof. vm_compute. reflexivity. Qed.

Example test_find_nothing :
  map (fun v => findLargeArrayField cfg10 v EmptyString)
      [JNull; JUndefined; JString "string"; JNumber 123; JArray []; fill 10 (item 1)]
  = [None; None; None; None; None; None].
Proof. vm_compute. reflexivity. Qed.

Example test_find_paths :
  map (fun v => option_map fieldPath (findLargeArrayField cfg10 v EmptyString))
      [fill 15 (item 1); sampleGraphql; sampleNestedItems; sampleNestedLast;
       sampleDeeplyNested]
  = [Some "(root)"; Some "edges"; Some "data.items"; Some "largeArray1";
     Some "level1.level2.level3.items"].
Proof. vm_compute. reflexivity. Qed.

Example test_limit_null :
  limitItems cfg10 JNull = Returns (unlimited JNull).
Proof. reflexivity. Qed.

Example test_limit_edges :
  limitItems cfg10 sampleGraphql
  = Returns {| limited :=
                 JObject [ ("edges", fill 10 (JObject [("node",
                              JObject [("id", JString "1"); ("name", JString "Test")])]));
                           ("pageInfo", JObject [("hasNextPage", JBool true)]) ];
               originalCount := 15; wasLimited := true;
               limitedField := Some "edges" |}.
Proof. vm_compute. reflexivity. Qed.

Example test_limit_custom_threshold :
  option_map (fun r => (wasLimited r, limited r))
    (match limitItems {| maxItemsForContext := 5 |} (fill 10 (item 1)) with
     | Returns r => Some r
     | _ => None
     end)
  = Some (true, fill 5 (item 1))
  /\ limitItems {| maxItemsForContext := 20 |} (fill 15 (item 1))
     = Returns (unlimited (fill 15 (item 1))).
Proof. split; vm_compute; reflexivity. Qed.

Example test_outline_object_array :
  let outline :=
    generateJsonStructureTree
      (JArray [JObject [("id", JNumber 1); ("name", JString "test")]]) EmptyString true in
  forallb (Js.includes outline) ["Array[1]"; "id: number"; "name: string"] = true.
Proof. vm_compute. reflexivity. Qed.

Example test_outline_nested_object :
  let outline := generateJsonStructureTree sampleUser EmptyString true in
  forallb (Js.includes outline)
    ["user:"; "id: number"; "profile:"; "name: string"; "active: boolean"] = true.
Proof. vm_compute. reflexivity. Qed.

Example test_outline_array_length :
  Js.includes
    (generateJsonStructureTree (JObject [("items", fill 5 (item 1))]) EmptyString true)
    "items: Array[5]" = true.
Proof. vm_compute. reflexivity. Qed.

Example test_fileName_params :
  rawDataFileName "get_posts" sampleParams "2024-01-02T03:04:05.678Z"
  = "get_posts_featured=true_first=10_2024-01-02T03-04-05-678Z.json".
Proof. vm_compute. reflexivity. Qed.

Example test_fileName_sanitized :
  let name :=
    rawDataFileName "test_tool" (Some [("query", JString "test/path:value")])
      "2024-01-02T03:04:05.678Z" in
  name = "test_tool_query=test-path-value_2024-01-02T03-04-05-678Z.json"
  /\ Js.includes name "/" = false /\ Js.includes name ":" = false.
Proof. repeat split; vm_compute; reflexivity. Qed.

Example test_render_sections :
  let shown :=
    renderedText
      (formatResponse cfg10 (JObject [("id", JNumber 1); ("name", JString "test")])
         (Some {| rawDataSaveDir := None; toolName := Some "get_posts"; params := None |})
         writableWorld) in
  forallb (Js.includes shown)
    [ "## get_posts"; "### JSON Structure"; "id: number"; "name: string";
      "### Data"; fence ++ "json"; JSON.quote "id" ++ ": 1" ] = true.
Proof. vm_compute. reflexivity. Qed.

Example test_render_limited :
  let shown :=
    renderedText
      (formatResponse cfg10
         (JObject [("edges", fill 15 (JObject [("node", item 1)]))]) None writableWorld) in
  forallb (Js.includes shown)
    [ "`edges` limited to 10 items (15 total)";
      "### Data (`edges`: 10/15 items)" ] = true.
Proof. vm_compute. reflexivity. Qed.

Example test_render_archived :
  let shown :=
    renderedText
      (formatResponse cfg10 (JObject [("id", JNumber 1); ("name", JString "test")])
         (Some {| rawDataSaveDir := Some "/tmp"; toolName := Some "test_tool";
                  params := None |})
         writableWorld) in
  forallb (Js.includes shown)
    [ "Raw data saved to"; "/tmp/test_tool_2024-01-02T03-04-05-678Z.json"; "(31 B)" ]
  = true.
Proof. vm_compute. reflexivity. Qed.

(** The unit test [limits deeply nested array without modifying other
    fields], obtained from the general statement: the located field is cut
    and the sibling subtree [meta] is the one of the input. *)
Example test_limit_nested_by_theorem :
  limitItems cfg10 sampleNestedItems
  = Returns {| limited := cutAt 10 ["data"; "items"] sampleNestedItems;
               originalCount := 12; wasLimited := true;
               limitedField := Some "data.items" |}
  /\ valueAt ["meta"] (cutAt 10 ["data"; "items"] sampleNestedItems)
     = valueAt ["meta"] sampleNestedItems.
Proof.
  split.
  - destruct (findLargeArrayField cfg10 sampleNestedItems EmptyString) as [r|] eqn:E;
      [|discriminate E].
    assert (Hr : fieldPath r = "data.items" /\ array r = repeat (item 1) 12
                 /\ parentObj r <> JNull).
    { vm_compute in E. injection E as <-. repeat split. discriminate. }
    destruct Hr as (Hpath & Harr & Hparent).
    rewrite (limitItems_replaces_field_under_plain_keys cfg10 sampleNestedItems r
               ["data"; "items"]).
    + rewrite Hpath, Harr. reflexivity.
    + vm_compute. reflexivity.
    + exact E.
    + unfold Located. rewrite Hpath, Harr. repeat split; try reflexivity.
      * discriminate.
      * intros H. contradiction.
    + discriminate.
    + repeat constructor.
    + left. discriminate.
  - apply valueAt_cutAt_other. constructor. discriminate.
Qed.

(** ** The JSON text model on small inputs *)

Example stringify_indented :
  JSON.stringify (JObject [("id", JNumber 1); ("tags", JArray []);
                           ("ok", JArray [JBool true; JNull])]) 2
  = Some ("{" ++ JSON.LF
          ++ "  " ++ JSON.quote "id" ++ ": 1," ++ JSON.LF
          ++ "  " ++ JSON.quote "tags" ++ ": []," ++ JSON.LF
          ++ "  " ++ JSON.quote "ok" ++ ": [" ++ JSON.LF
          ++ "    true," ++ JSON.LF
          ++ "    null" ++ JSON.LF
          ++ "  ]" ++ JSON.LF
          ++ "}").
Proof. vm_compute. reflexivity. Qed.

Example stringify_compact :
  JSON.stringify (JObject [("a.b", JArray [JNumber (-7); JString "x"])]) 0
  = Some ("{" ++ JSON.quote "a.b" ++ ":[-7," ++ JSON.quote "x" ++ "]}").
Proof. vm_compute. reflexivity. Qed.

Example stringify_drops_undefined :
  JSON.stringify (JObject [("a", JUndefined); ("b", JArray [JUndefined])]) 0
  = Some ("{" ++ JSON.quote "b" ++ ":[null]}")
  /\ JSON.stringify JUndefined 2 = None.
Proof. split; vm_compute; reflexivity. Qed.

Example parse_accepts :
  JSON.parse " [1, 2 , [ ], {} ,null ] "
  = Returns (JArray [JNumber 1; JNumber 2; JArray []; JObject []; JNull])
  /\ JSON.parse ("{" ++ JSON.quote "b" ++ ":1," ++ JSON.quote "2" ++ ":true,"
                 ++ JSON.quote "b" ++ ":0}")
     = Returns (JObject [("2", JBool true); ("b", JNumber 0)]).
Proof. split; vm_compute; reflexivity. Qed.

Example parse_rejects :
  map JSON.parse ["[1,]"; "tru"; "01"; "{1:2}"; "[1] x"; "undefined"; EmptyString]
  = repeat JSON.syntaxError 7.
Proof. vm_compute. reflexivity. Qed.

(** * Further properties of the code *)

(** ** The locator's report *)

Lemma scan_report config parent pathStr entries r :
  Forall (fun e => forall p r',
              findLargeArrayField config (snd e) p = Some r' ->
              exceeds config (array r') = true
              /\ ((parentObj r' = JNull /\ snd e = JArray (array r')
                   /\ fieldKey r' = EmptyString)
                  \/ exists fields, parentObj r' = JObject fields
                                    /\ In (fieldKey r', JArray (array r')) fields))
         entries ->
  scanFields config parent pathStr entries = Some r ->
  exceeds config (array r) = true
  /\ ((parentObj r = parent /\ In (fieldKey r, JArray (array r)) entries)
      \/ exists fields, parentObj r = JObject fields
                        /\ In (fieldKey r, JArray (array r)) fields).
Proof.
  intros Hall. induction Hall as [|[key value] rest Hvalue _ IH]; intros Hscan;
    [discriminate|].
  cbn [snd] in Hvalue. cbn [scanFields] in Hscan.
  fold (scanFields config parent pathStr) in Hscan.
  assert (Hrest : scanFields config parent pathStr rest = Some r ->
                  exceeds config (array r) = true
                  /\ ((parentObj r = parent
                       /\ In (fieldKey r, JArray (array r)) ((key, value) :: rest))
                      \/ exists fields, parentObj r = JObject fields
                                        /\ In (fieldKey r, JArray (array r)) fields)).
  { intros H. destruct (IH H) as [Hex [[Hp Hin] | Hnested]].
    - split; [exact Hex|]. left. split; [exact Hp | right; exact Hin].
    - split; [exact Hex | right; exact Hnested]. }
  destruct value as [| | | | | items | inner]; try exact (Hrest Hscan).
  - destruct (exceeds config items) eqn:E; [|exact (Hrest Hscan)].
    injection Hscan as <-. cbn. split; [exact E|]. left. split; [reflexivity|].
    left. reflexivity.
  - destruct (findLargeArrayField config (JObject inner) _) as [found|] eqn:Ef;
      [|exact (Hrest Hscan)].
    injection Hscan as <-.
    destruct (Hvalue _ _ Ef) as [Hex [(_ & Habs & _) | Hnested]]; [discriminate|].
    split; [exact Hex | right; exact Hnested].
Qed.

Lemma find_report config data pathStr r :
  findLargeArrayField config data pathStr = Some r ->
  exceeds config (array r) = true
  /\ ((parentObj r = JNull /\ data = JArray (array r) /\ fieldKey r = EmptyString)
      \/ exists fields, parentObj r = JObject fields
                        /\ In (fieldKey r, JArray (array r)) fields).
Proof.
  revert pathStr r.
  induction data as [| | b | n | s | items IH | fields IH] using JsValue_ind;
    intros pathStr r Hfind;
    try (rewrite find_scalar in Hfind by reflexivity; discriminate).
  - rewrite find_array in Hfind.
    destruct (exceeds config items) eqn:E; [|discriminate].
    injection Hfind as <-. cbn. split; [exact E|]. left. repeat split.
  - rewrite find_object in Hfind.
    destruct (scan_report config (JObject fields) pathStr fields r IH Hfind)
      as [Hex [[Hp Hin] | Hnested]].
    + split; [exact Hex|]. right. exists fields. split; assumption.
    + split; [exact Hex | right; exact Hnested].
Qed.

(** Whatever the locator reports is an array longer than the threshold,
    and either the searched value itself (no parent, empty key) or the
    value that the reported parent object holds under the reported key. *)
Theorem locator_report_is_consistent config data pathStr r :
  findLargeArrayField config data pathStr = Some r ->
  exceeds config (array r) = true
  /\ ((parentObj r = JNull /\ data = JArray (array r) /\ fieldKey r = EmptyString)
      \/ exists fields, parentObj r = JObject fields
                        /\ In (fieldKey r, JArray (array r)) fields).
Proof. apply find_report. Qed.

Lemma locator_report_is_consistent_witness :
  findLargeArrayField cfg10 sampleNestedItems EmptyString = Some sampleNestedReport
  /\ exceeds cfg10 (array sampleNestedReport) = true
  /\ ((parentObj sampleNestedReport = JNull
       /\ sampleNestedItems = JArray (array sampleNestedReport)
       /\ fieldKey sampleNestedReport = EmptyString)
      \/ exists fields, parentObj sampleNestedReport = JObject fields
                        /\ In (fieldKey sampleNestedReport,
                               JArray (array sampleNestedReport)) fields).
Proof.
  assert (A : findLargeArrayField cfg10 sampleNestedItems EmptyString
              = Some sampleNestedReport) by (vm_compute; reflexivity).
  exact (conj A (locator_report_is_consistent cfg10 sampleNestedItems EmptyString
                   sampleNestedReport A)).
Defined.

(** The keys that lead to the reported array, and the reported path built
    from them as the loop builds it: each key is appended after a [.],
    except onto a path that is still empty. The path is therefore the keys
    joined with [.] when the first key is not empty, while a leading empty
    key leaves no trace in it. *)
Theorem locator_report_names_its_position config data r :
  isJson data = true ->
  findLargeArrayField config data EmptyString = Some r ->
  exists keys,
    valueAt keys data = Some (JArray (array r))
    /\ fieldPath r = match keys with
                     | [] => "(root)"
                     | _ => pathFrom EmptyString keys
                     end
    /\ (hd EmptyString keys <> EmptyString -> fieldPath r = Js.join "." keys)
    /\ (keys = [] <-> parentObj r = JNull).
Proof.
  intros Hjson Hfind.
  destruct (find_sound config data Hjson EmptyString r Hfind)
    as (keys & Hat & Hpath & _ & Hnull).
  exists keys. split; [exact Hat|]. split; [exact Hpath|]. split; [|exact Hnull].
  destruct keys as [|k m]; cbn [hd]; intros Hk; [contradiction|].
  rewrite Hpath. cbn [pathFrom String.eqb]. apply pathFrom_join, Hk.
Qed.

Example locator_drops_leading_empty_key :
  option_map fieldPath
    (findLargeArrayField cfg10
       (JObject [(EmptyString, JObject [("x", fill 11 (item 0))])]) EmptyString)
  = Some "x"
  /\ pathFrom EmptyString [EmptyString; "x"] = "x"
  /\ Js.join "." [EmptyString; "x"] = ".x".
Proof. repeat split. Qed.

Lemma locator_report_names_its_position_witness :
  isJson sampleDeeplyNested = true
  /\ exists r,
       findLargeArrayField cfg10 sampleDeeplyNested EmptyString = Some r
       /\ exists keys,
            valueAt keys sampleDeeplyNested = Some (JArray (array r))
            /\ fieldPath r = match keys with
                             | [] => "(root)"
                             | _ => pathFrom EmptyString keys
                             end
            /\ (hd EmptyString keys <> EmptyString -> fieldPath r = Js.join "." keys)
            /\ (keys = [] <-> parentObj r = JNull).
Proof.
  assert (A : isJson sampleDeeplyNested = true) by (vm_compute; reflexivity).
  split; [exact A|].
  destruct (findLargeArrayField cfg10 sampleDeeplyNested EmptyString) as [r|] eqn:E;
    [|discriminate E].
  exists r. split; [reflexivity|].
  exact (locator_report_names_its_position cfg10 sampleDeeplyNested r A E).
Defined.

(** ** No report means nothing to report *)

Lemma scan_none config parent pathStr entries :
  scanFields config parent pathStr entries = None ->
  forall key child, In (key, child) entries ->
    (forall items, child = JArray items -> exceeds config items = false)
    /\ (forall inner, child = JObject inner ->
                      exists p, findLargeArrayField config child p = None).
Proof.
  induction entries as [|[k v] rest IH]; intros Hscan key child Hin; [contradiction|].
  cbn [scanFields] in Hscan. fold (scanFields config parent pathStr) in Hscan.
  assert (Hhead : scanFields config parent pathStr rest = None ->
                  ((forall items, v = JArray items -> exceeds config items = false)
                   /\ (forall inner, v = JObject inner ->
                                     exists p, findLargeArrayField config v p = None)) ->
                  (forall items, child = JArray items -> exceeds config items = false)
                  /\ (forall inner, child = JObject inner ->
                                    exists p, findLargeArrayField config child p = None)).
  { intros Hrest Hv. destruct Hin as [Hin | Hin].
    - injection Hin as <- <-. exact Hv.
    - exact (IH Hrest key child Hin). }
  destruct v as [| | | | | items | inner];
    try (apply Hhead; [exact Hscan | split; intros ? H; discriminate H]).
  - destruct (exceeds config items) eqn:E; [discriminate|].
    apply Hhead; [exact Hscan|]. split; intros ? H; [|discriminate H].
    injection H as <-. exact E.
  - destruct (findLargeArrayField config (JObject inner) _) eqn:Ef; [discriminate|].
    apply Hhead; [exact Hscan|]. split; intros ? H; [discriminate H|].
    eexists. exact Ef.
Qed.

(** When the locator reports nothing, no array that can be reached from
    the value through object fields alone is longer than the threshold. *)
Theorem locator_none_means_nothing_reachable config data :
  forall pathStr,
    findLargeArrayField config data pathStr = None ->
    forall path items,
      Occurs data path (JArray items) -> fieldsOnly path ->
      exceeds config items = false.
Proof.
  induction data as [| | b | n | s | elements IH | fields IH] using JsValue_ind;
    intros pathStr Hfind path items Hocc Honly;
    try (inversion Hocc; fail).
  - inversion Hocc as [| | its i c p' w' Hn Hc]; subst.
    + rewrite find_array in Hfind.
      destruct (exceeds config items); [discriminate | reflexivity].
    + exfalso. apply (Honly i). left. reflexivity.
  - inversion Hocc as [| fs key child p' w' Hin Hc |]; subst.
    rewrite find_object in Hfind.
    destruct (scan_none config (JObject fields) pathStr fields Hfind key child Hin)
      as [Harr Hobj].
    assert (Honly' : fieldsOnly p')
      by (intros i Hi; apply (Honly i); right; exact Hi).
    rewrite Forall_forall in IH. specialize (IH (key, child) Hin). cbn [snd] in IH.
    destruct child as [| | | | | its | inner]; try (inversion Hc; fail).
    + inversion Hc as [| | its' i c p'' w'' Hn Hc']; subst.
      * apply Harr. reflexivity.
      * exfalso. apply (Honly' i). left. reflexivity.
    + destruct (Hobj inner eq_refl) as [q Hq].
      exact (IH q Hq p' items Hc Honly').
Qed.

Lemma locator_none_means_nothing_reachable_witness :
  findLargeArrayField cfg10 sampleInsideArray EmptyString = None
  /\ Occurs sampleInsideArray [Field "rows"]
       (JArray [JObject [("cells", fill 11 (JNumber 0))]])
  /\ fieldsOnly [Field "rows"]
  /\ exceeds cfg10 [JObject [("cells", fill 11 (JNumber 0))]] = false.
Proof.
  assert (A : findLargeArrayField cfg10 sampleInsideArray EmptyString = None)
    by (vm_compute; reflexivity).
  assert (B : Occurs sampleInsideArray [Field "rows"]
                (JArray [JObject [("cells", fill 11 (JNumber 0))]])).
  { eapply Occurs_field; [left; reflexivity | apply Occurs_here]. }
  assert (C : fieldsOnly [Field "rows"]).
  { intros i [H | []]. discriminate H. }
  exact (conj A (conj B (conj C
    (locator_none_means_nothing_reachable cfg10 sampleInsideArray EmptyString A
       _ _ B C)))).
Defined.

(** ** Declaration order decides between candidates *)

(** The first key, in declaration order, that is an oversized array or an
    object in which the locator finds one decides the report: a depth-1
    oversized array is reported exactly when every key declared before it
    yields nothing. *)
Theorem locator_reports_first_candidate config before key items after :
  (forall k v, In (k, v) before ->
               forall p, findLargeArrayField config v p = None) ->
  exceeds config items = true ->
  findLargeArrayField config
    (JObject (before ++ (key, JArray items) :: after)%list) EmptyString
  = Some {| fieldPath := key; array := items;
            parentObj := JObject (before ++ (key, JArray items) :: after)%list;
            fieldKey := key |}.
Proof.
  intros Hquiet Hex. rewrite find_object.
  generalize (JObject (before ++ (key, JArray items) :: after)%list) as parent.
  intros parent. induction before as [|[k v] rest IH].
  - cbn. rewrite Hex. reflexivity.
  - specialize (IH (fun k' v' H => Hquiet k' v' (or_intror H))).
    pose proof (Hquiet k v (or_introl eq_refl)) as Hv.
    cbn [app scanFields]. fold (scanFields config parent EmptyString).
    destruct v as [| | | | | inner | inner]; try exact IH.
    + specialize (Hv EmptyString). rewrite find_array in Hv.
      destruct (exceeds config inner); [discriminate | exact IH].
    + rewrite Hv. exact IH.
Qed.

Lemma locator_reports_first_candidate_witness :
  (forall k v, In (k, v) [("smallArray", fill 5 (item 1))] ->
               forall p, findLargeArrayField cfg10 v p = None)
  /\ exceeds cfg10 (repeat (item 2) 15) = true
  /\ option_map fieldPath (findLargeArrayField cfg10 sampleNestedLast EmptyString)
     = Some "largeArray1".
Proof.
  assert (A : forall k v, In (k, v) [("smallArray", fill 5 (item 1))] ->
                          forall p, findLargeArrayField cfg10 v p = None).
  { intros k v [H | []] p. injection H as _ <-. reflexivity. }
  assert (B : exceeds cfg10 (repeat (item 2) 15) = true) by (vm_compute; reflexivity).
  split; [exact A|]. split; [exact B|].
  exact (f_equal (option_map fieldPath)
           (locator_reports_first_candidate cfg10
              [("smallArray", fill 5 (item 1))] "largeArray1" (repeat (item 2) 15)
              [("nested", JObject [("largeArray2", fill 20 (item 3))])] A B)).
Defined.

(** ** What the limiter returns *)

(** Whenever the limiter returns, either nothing was limited and the
    result is the input itself with count 0 and no field, or the locator
    had a report, the result names its path, and the count is the length
    of the reported array, above the threshold. *)
Theorem limitItems_result_shape config data res :
  limitItems config data = Returns res ->
  (wasLimited res = false /\ limited res = data /\ originalCount res = 0
   /\ limitedField res = None
   /\ (Js.truthy data = false \/ findLargeArrayField config data EmptyString = None))
  \/ (wasLimited res = true
      /\ exists info,
           findLargeArrayField config data EmptyString = Some info
           /\ limitedField res = Some (fieldPath info)
           /\ originalCount res = Z.of_nat (List.length (array info))
           /\ maxItemsForContext config < originalCount res).
Proof.
  unfold limitItems, limitItemsIn. cbv zeta. cbn [load argument].
  destruct (Js.truthy data) eqn:Htruthy; cbn [negb].
  2:{ intros H. injection H as <-. left. cbn. auto 6. }
  destruct (findLargeArrayField config data EmptyString) as [info|] eqn:Hfind.
  2:{ intros H. injection H as <-. left. cbn. auto 6. }
  pose proof (find_report config data EmptyString info Hfind) as [Hex _].
  assert (Hcount : maxItemsForContext config < Z.of_nat (List.length (array info)))
    by (unfold exceeds in Hex; lia).
  intros H. right.
  assert (Hres : wasLimited res = true
                 /\ limitedField res = Some (fieldPath info)
                 /\ originalCount res = Z.of_nat (List.length (array info))).
  { destruct (parentObj info);
      try (destruct (JSON.clone data) as [copy| |]; try discriminate H;
           unfold assignThrough in H; cbn [load store limitedData argument] in H;
           match type of H with
           | context [assignAt ?a ?b ?c ?d] => destruct (assignAt a b c d)
           end; try discriminate H;
           cbn [bind fst] in H; injection H as <-; repeat split).
    destruct data; try discriminate H. cbn [fst] in H. injection H as <-.
    repeat split. }
  destruct Hres as (Hw & Hf & Hc). split; [exact Hw|].
  exists info. rewrite Hc. auto.
Qed.

Lemma limitItems_result_shape_witness :
  exists res,
    limitItems cfg10 sampleGraphql = Returns res
    /\ ((wasLimited res = false /\ limited res = sampleGraphql /\ originalCount res = 0
         /\ limitedField res = None
         /\ (Js.truthy sampleGraphql = false
             \/ findLargeArrayField cfg10 sampleGraphql EmptyString = None))
        \/ (wasLimited res = true
            /\ exists info,
                 findLargeArrayField cfg10 sampleGraphql EmptyString = Some info
                 /\ limitedField res = Some (fieldPath info)
                 /\ originalCount res = Z.of_nat (List.length (array info))
                 /\ maxItemsForContext cfg10 < originalCount res)).
Proof.
  destruct (limitItems cfg10 sampleGraphql) as [res| |] eqn:E;
    [|vm_compute in E; discriminate E..].
  exists res. split; [reflexivity|].
  exact (limitItems_result_shape cfg10 sampleGraphql res E).
Defined.

(** On a JSON value whose keys on the way to the located field contain
    no separator (the first one not empty), the limiter returns a copy in
    which that field holds the first [maxItemsForContext] elements of the
    located array and every position that parts ways with the field holds
    what it holds in the input. *)
Theorem limitItems_cuts_only_located_field config data r keys :
  isJson data = true ->
  findLargeArrayField config data EmptyString = Some r ->
  Located config data EmptyString r keys -> keys <> [] ->
  Forall (fun k => dotFree k = true) keys ->
  hd EmptyString keys <> EmptyString \/ tl keys = [] ->
  exists res,
    limitItems config data = Returns res
    /\ wasLimited res = true
    /\ valueAt keys (limited res)
       = Some (JArray (Js.slice0 (maxItemsForContext config) (array r)))
    /\ forall others, Diverge keys others ->
                      valueAt others (limited res) = valueAt others data.
Proof.
  intros Hjson Hfind Hloc Hne Hplain Hhead.
  eexists. split.
  - exact (limitItems_replaces_field_under_plain_keys config data r keys
             Hjson Hfind Hloc Hne Hplain Hhead).
  - cbn [wasLimited limited]. split; [reflexivity|]. split.
    + apply valueAt_cutAt_same. apply Hloc.
    + intros others Hd. apply valueAt_cutAt_other, Hd.
Qed.

Lemma limitItems_cuts_only_located_field_witness :
  isJson sampleNestedItems = true
  /\ findLargeArrayField cfg10 sampleNestedItems EmptyString = Some sampleNestedReport
  /\ Located cfg10 sampleNestedItems EmptyString sampleNestedReport ["data"; "items"]
  /\ exists res,
       limitItems cfg10 sampleNestedItems = Returns res
       /\ wasLimited res = true
       /\ valueAt ["data"; "items"] (limited res)
          = Some (JArray (Js.slice0 10 (array sampleNestedReport)))
       /\ forall others, Diverge ["data"; "items"] others ->
                         valueAt others (limited res) = valueAt others sampleNestedItems.
Proof.
  assert (A : isJson sampleNestedItems = true) by (vm_compute; reflexivity).
  assert (B : findLargeArrayField cfg10 sampleNestedItems EmptyString
              = Some sampleNestedReport) by (vm_compute; reflexivity).
  assert (C : Located cfg10 sampleNestedItems EmptyString sampleNestedReport
                ["data"; "items"]).
  { unfold Located. repeat split; try (vm_compute; reflexivity).
    - intros H. discriminate H.
    - intros H. discriminate H. }
  assert (D : ["data"; "items"] <> []) by discriminate.
  assert (E : Forall (fun k => dotFree k = true) ["data"; "items"])
    by (repeat constructor).
  assert (F : hd EmptyString ["data"; "items"] <> EmptyString
              \/ tl ["data"; "items"] = []) by (left; discriminate).
  exact (conj A (conj B (conj C
    (limitItems_cuts_only_located_field cfg10 sampleNestedItems sampleNestedReport
       ["data"; "items"] A B C D E F)))).
Defined.

(** Limiting a root array a second time changes nothing: the limited
    array is within the threshold. *)
Theorem limitItems_root_array_twice config V res :
  0 <= maxItemsForContext config ->
  limitItems config (JArray V) = Returns res ->
  limitItems config (limited res) = Returns (unlimited (limited res)).
Proof.
  intros Hpos. unfold limitItems at 1. unfold limitItemsIn. cbv zeta.
  cbn [load argument fst Js.truthy negb]. rewrite find_array.
  destruct (exceeds config V) eqn:E.
  - cbn. intros H. injection H as <-. cbn [limited].
    apply limitItems_unlimited, find_root_array_within_threshold.
    unfold exceeds, Js.slice0.
    destruct (Z.ltb_spec (maxItemsForContext config) 0) as [Hneg|_]; [lia|].
    rewrite length_firstn.
    destruct (Z.gtb_spec (Z.of_nat (Nat.min (Z.to_nat (maxItemsForContext config))
                                      (List.length V)))
                (maxItemsForContext config)); [lia|reflexivity].
  - cbn. intros H. injection H as <-. cbn [limited].
    apply limitItems_unlimited, find_root_array_within_threshold, E.
Qed.

Lemma limitItems_root_array_twice_witness :
  0 <= maxItemsForContext cfg10
  /\ exists res,
       limitItems cfg10 (fill 15 (item 0)) = Returns res
       /\ limitItems cfg10 (limited res) = Returns (unlimited (limited res)).
Proof.
  assert (A : 0 <= maxItemsForContext cfg10) by (vm_compute; discriminate).
  split; [exact A|].
  destruct (limitItems cfg10 (fill 15 (item 0))) as [res| |] eqn:E;
    [|vm_compute in E; discriminate E..].
  exists res. split; [reflexivity|].
  exact (limitItems_root_array_twice cfg10 (repeat (item 0) 15) res A E).
Defined.

(** ** The characters of the archive's file name *)

Lemma allChars_append ok s t :
  allChars ok (s ++ t) = allChars ok s && allChars ok t.
Proof.
  induction s as [|c s IH]; cbn; [reflexivity|].
  rewrite IH. apply andb_assoc.
Qed.

Lemma allChars_replaced ok class r s :
  ok r = true -> (forall c, class c = false -> ok c = true) ->
  allChars ok (Js.replaceAll class r s) = true.
Proof.
  intros Hr Hok. induction s as [|c s IH]; cbn; [reflexivity|].
  rewrite IH, andb_true_r. destruct (class c) eqn:E; [exact Hr | apply Hok, E].
Qed.

Lemma allChars_kept ok class r s :
  ok r = true -> allChars ok s = true ->
  allChars ok (Js.replaceAll class r s) = true.
Proof.
  intros Hr. induction s as [|c s IH]; cbn; [reflexivity|].
  intros H. apply andb_true_iff in H as [Hc Hs].
  rewrite (IH Hs), andb_true_r. destruct (class c); assumption.
Qed.

Lemma allChars_weaken (ok ok' : ascii -> bool) s :
  (forall c, ok c = true -> ok' c = true) ->
  allChars ok s = true -> allChars ok' s = true.
Proof.
  intros Himp. induction s as [|c s IH]; cbn; [reflexivity|].
  intros H. apply andb_true_iff in H as [Hc Hs].
  rewrite (Himp c Hc), (IH Hs). reflexivity.
Qed.

Lemma safe_not_separator c : safeInFileName c = true -> notPathSeparator c = true.
Proof.
  destruct c as [b0 b1 b2 b3 b4 b5 b6 b7].
  destruct b0, b1, b2, b3, b4, b5, b6, b7; vm_compute; congruence.
Qed.

Lemma paramsString_chars params :
  allChars safeInFileName (paramsString params) = true.
Proof.
  destruct params as [entries|]; [|reflexivity].
  unfold paramsString. cbv zeta.
  destruct (_ =? EmptyString)%string; [reflexivity|].
  cbn [append allChars]. rewrite andb_true_iff. split; [reflexivity|].
  apply allChars_replaced; [reflexivity|].
  intros c E. unfold safeInFileName. rewrite E. reflexivity.
Qed.

(** Whatever the parameters hold, the parameter block of the file name
    consists of letters, digits, [_], [=] and [-] only; in particular it
    holds no path separator. *)
Theorem paramsString_file_name_safe params :
  allChars safeInFileName (paramsString params) = true
  /\ allChars notPathSeparator (paramsString params) = true.
Proof.
  split; [apply paramsString_chars|].
  exact (allChars_weaken _ _ _ safe_not_separator (paramsString_chars params)).
Qed.

(** The parameters cannot put a path separator into the file name: it
    holds one only if the tool name or the clock reading does. *)
Theorem rawDataFileName_separators toolName params now :
  allChars notPathSeparator toolName = true ->
  allChars notPathSeparator now = true ->
  allChars notPathSeparator (rawDataFileName toolName params now) = true.
Proof.
  intros Htool Hnow. unfold rawDataFileName. cbv zeta.
  rewrite !allChars_append, Htool.
  rewrite (allChars_weaken _ _ _ safe_not_separator (paramsString_chars params)).
  rewrite (allChars_kept notPathSeparator isColonOrDot "-" now eq_refl Hnow).
  reflexivity.
Qed.

Lemma rawDataFileName_separators_witness :
  allChars notPathSeparator "get_posts" = true
  /\ allChars notPathSeparator "2024-01-02T03:04:05.678Z" = true
  /\ allChars notPathSeparator
       (rawDataFileName "get_posts" sampleHostileParams "2024-01-02T03:04:05.678Z") = true.
Proof.
  assert (A : allChars notPathSeparator "get_posts" = true) by reflexivity.
  assert (B : allChars notPathSeparator "2024-01-02T03:04:05.678Z" = true)
    by reflexivity.
  exact (conj A (conj B
    (rawDataFileName_separators "get_posts" sampleHostileParams
       "2024-01-02T03:04:05.678Z" A B))).
Defined.

Lemma length_substring0 n s : (String.length (Js.substring0 n s) <= n)%nat.
Proof.
  unfold Js.substring0. revert s.
  induction n as [|n IH]; intros [|c s]; cbn; try lia.
  specialize (IH s). lia.
Qed.

Lemma prefix_substring0 n s : prefix (Js.substring0 n s) s = true.
Proof.
  unfold Js.substring0. revert s.
  induction n as [|n IH]; intros [|c s]; cbn; try reflexivity.
  destruct (ascii_dec c c); [apply IH | congruence].
Qed.

Lemma renderParam_head entry :
  exists c rest, renderParam entry = String c rest.
Proof.
  destruct entry as [[|c key] value]; cbn; eauto.
Qed.

Lemma join_nonempty sep c rest more :
  exists c' rest', Js.join sep (String c rest :: more) = String c' rest'.
Proof. destruct more; cbn; eauto. Qed.

(** The parameter block is empty exactly when no parameter is eligible,
    and starts with [_] otherwise. *)
Theorem paramsString_empty_iff entries :
  (filter isRelevantParam entries = [] /\ paramsString (Some entries) = EmptyString)
  \/ (filter isRelevantParam entries <> []
      /\ exists rest, paramsString (Some entries) = String "_" rest).
Proof.
  unfold paramsString. cbv zeta.
  destruct (filter isRelevantParam entries) as [|e kept]; [left; split; reflexivity|].
  right. split; [discriminate|]. cbn [map].
  destruct (renderParam_head e) as (c & rest & ->).
  destruct (join_nonempty "_" c rest (map renderParam kept)) as (c' & rest' & ->).
  cbn. eauto.
Qed.

(** ** What archiving does to the file system *)




(** When [saveRawData] throws, no file has been written. *)
Theorem saveRawData_failure_writes_nothing data dir tool ps w e w' :
  saveRawData data dir tool ps w = (Throws e, w') ->
  files w' = files w.
Proof.
  unfold saveRawData. intros H.
  destruct (Fs.existsSync w dir); cbn [negb] in H.
  - destruct (JSON.stringify data 2) as [written|];
      [|injection H as _ <-; reflexivity].
    unfold Fs.writeFileSync in H.
    destruct (writeError w _); [injection H as _ <-; reflexivity|].
    unfold Fs.statSize in H. cbn [files] in H. rewrite lookup_written in H.
    discriminate H.
  - unfold Fs.mkdirSync in H.
    destruct (mkdirError w dir); [injection H as _ <-; reflexivity|].
    cbn [clock pathJoin] in H.
    destruct (JSON.stringify data 2) as [written|];
      [|injection H as _ <-; reflexivity].
    unfold Fs.writeFileSync in H. cbn [writeError] in H.
    destruct (writeError w _); [injection H as _ <-; reflexivity|].
    unfold Fs.statSize in H. cbn [files] in H. rewrite lookup_written in H.
    discriminate H.
Qed.

Lemma saveRawData_failure_writes_nothing_witness :
  exists w',
    saveRawData samplePost "/data/out" "get_post" None readOnlyWorld
    = (Throws (IOError "EACCES"), w')
    /\ files w' = files readOnlyWorld.
Proof.
  destruct (saveRawData samplePost "/data/out" "get_post" None readOnlyWorld)
    as [out w'] eqn:E.
  assert (Hout : out = Throws (IOError "EACCES")).
  { change out with (fst (out, w')). rewrite <- E. reflexivity. }
  subst out. exists w'. split; [reflexivity|].
  exact (saveRawData_failure_writes_nothing samplePost "/data/out" "get_post" None
           readOnlyWorld (IOError "EACCES") w' E).
Defined.

(** ** The composition in [formatResponse] *)

Lemma formatResponse_returns config data options w result w' :
  formatResponse config data options w = (Returns result, w') ->
  exists saved r,
    limitItems config data = Returns r
    /\ content result
       = [ {| type := "text";
              text := Js.join JSON.LF (renderLines config options saved r) |} ]
    /\ match nonEmpty (optionField options rawDataSaveDir) with
       | Some dir =>
           exists info,
             saved = Some info
             /\ saveRawData data dir (orElse (optionField options toolName) "response")
                  (optionField options params) w = (Returns info, w')
       | None => saved = None /\ w' = w
       end.
Proof.
  unfold formatResponse. intros H.
  destruct (nonEmpty (optionField options rawDataSaveDir)) as [dir|].
  - destruct (saveRawData data dir _ _ w) as [[info| |] w1] eqn:Hsave;
      cbn [bind] in H; try discriminate H.
    destruct (limitItems config data) as [r| |]; cbn [bind] in H; try discriminate H.
    injection H as <- <-. exists (Some info), r. cbn [content]. eauto.
  - cbn [bind] in H.
    destruct (limitItems config data) as [r| |]; cbn [bind] in H; try discriminate H.
    injection H as <- <-. exists None, r. cbn [content]. auto.
Qed.

Lemma includes_prefixed s sub : prefix sub s = true -> Js.includes s sub = true.
Proof. intros H. destruct s; cbn [Js.includes]; rewrite H; reflexivity. Qed.

Lemma includes_join sep lines line sub :
  In line lines -> Js.includes line sub = true ->
  Js.includes (Js.join sep lines) sub = true.
Proof.
  intros Hin Hsub. induction lines as [|x rest IH]; [destruct Hin|].
  unfold Js.join in *. cbn [String.concat].
  destruct Hin as [-> | Hin].
  - destruct rest; [exact Hsub | apply includes_extend, Hsub].
  - destruct rest as [|y rest]; [destruct Hin|].
    apply includes_after, includes_after, IH, Hin.
Qed.




(** Whenever [formatResponse] returns, its result is one text item that
    starts with the line [## tool] (or [## Response]) and contains the
    section markers [### JSON Structure] and [### Data]. *)
Theorem formatResponse_sections config data options w result w' :
  formatResponse config data options w = (Returns result, w') ->
  exists body rest,
    content result = [ {| type := "text"; text := body |} ]
    /\ body = "## " ++ orElse (optionField options toolName) "Response"
                ++ JSON.LF ++ rest
    /\ Js.includes body "### JSON Structure" = true
    /\ Js.includes body "### Data" = true.
Proof.
  intros H.
  destruct (formatResponse_returns config data options w result w' H)
    as (saved & r & _ & Htext & _).
  eexists. eexists. split; [exact Htext|]. split; [|split].
  - unfold renderLines. cbv zeta. cbn [List.concat app].
    unfold Js.join at 1. cbn [String.concat].
    rewrite append_assoc. reflexivity.
  - apply includes_join with (line := "### JSON Structure"); [|reflexivity].
    unfold renderLines. cbv zeta. apply in_concat.
    eexists. split; [do 3 right; left; reflexivity | left; reflexivity].
  - destruct (wasLimited r) eqn:Hw.
    + eapply includes_join; [|apply includes_prefixed].
      * unfold renderLines. cbv zeta. apply in_concat.
        eexists. split; [do 4 right; left; reflexivity|]. rewrite Hw.
        left. reflexivity.
      * reflexivity.
    + apply includes_join with (line := "### Data"); [|reflexivity].
      unfold renderLines. cbv zeta. apply in_concat.
      eexists. split; [do 4 right; left; reflexivity|]. rewrite Hw.
      left. reflexivity.
Qed.

Lemma formatResponse_sections_witness :
  exists result w' body rest,
    formatResponse cfg10 sampleGraphql (archiveTo "/tmp") writableWorld
    = (Returns result, w')
    /\ content result = [ {| type := "text"; text := body |} ]
    /\ body = "## get_posts" ++ JSON.LF ++ rest
    /\ Js.includes body "### JSON Structure" = true
    /\ Js.includes body "### Data" = true.
Proof.
  destruct (formatResponse cfg10 sampleGraphql (archiveTo "/tmp") writableWorld)
    as [[result| |] w'] eqn:E; [|vm_compute in E; discriminate E..].
  destruct (formatResponse_sections cfg10 sampleGraphql (archiveTo "/tmp")
              writableWorld result w' E) as (body & rest & A & B & C & D).
  exists result, w', body, rest. repeat split; assumption.
Defined.

(** ** The outline looks at first elements only *)




Lemma alikeFields_nil l m :
  alikeFields l m -> (l = [] <-> m = []).
Proof.
  destruct l as [|[k a] l], m as [|[k' b] m]; cbn; intros H; try destruct H;
    split; intros E; (reflexivity || discriminate E).
Qed.




(** ** The server's cleaners *)

Ltac bind_step :=
  match goal with
  | |- bind ?m _ = _ -> _ =>
      let E := fresh "E" in
      destruct m as [?| |] eqn:E; cbn [bind]; [|discriminate..]
  end.

Lemma filterM_kept p items kept :
  Server.filterM p items = Returns kept ->
  Forall (fun m => p m = Returns true) kept.
Proof.
  revert kept. induction items as [|x items IH]; cbn [Server.filterM]; intros kept H.
  - injection H as <-. constructor.
  - destruct (p x) as [keep| |] eqn:Hp; cbn [bind] in H; try discriminate H.
    destruct (Server.filterM p items) as [rest| |]; cbn [bind] in H;
      try discriminate H.
    injection H as <-. destruct keep; [constructor|]; auto.
Qed.

Lemma mapM_each f items ys :
  Server.mapM f items = Returns ys ->
  Forall2 (fun x y => f x = Returns y) items ys.
Proof.
  revert ys. induction items as [|x items IH]; cbn [Server.mapM]; intros ys H.
  - injection H as <-. constructor.
  - destruct (f x) as [y| |] eqn:Hf; cbn [bind] in H; try discriminate H.
    destruct (Server.mapM f items) as [rest| |]; cbn [bind] in H;
      try discriminate H.
    injection H as <-. constructor; auto.
Qed.

Lemma makerNames_clean raw v :
  Server.makerNames raw = Returns v ->
  exists names, v = JArray names
                /\ Forall (fun n => Server.isRedacted n = false) names.
Proof.
  unfold Server.makerNames. bind_step.
  destruct j; try discriminate;
    try (intros H; injection H as <-; exists []; split; [reflexivity | constructor]).
  bind_step. bind_step. intros H. injection H as <-.
  eexists. split; [reflexivity|].
  apply filterM_kept in E0. apply mapM_each in E1.
  induction E1 as [|m n kept names Hn _ IH]; [constructor|].
  pose proof (Forall_inv E0) as Hm. cbn beta in Hm. rewrite Hn in Hm.
  cbn [bind] in Hm. injection Hm as Hm.
  constructor; [destruct (Server.isRedacted n); [discriminate Hm | reflexivity]|].
  apply IH. exact (Forall_inv_tail E0).
Qed.

(** A cleaned post lists no maker named [[REDACTED]]. *)
Theorem cleanPost_drops_redacted_makers raw fields :
  Server.cleanPost raw = Returns (JObject fields) ->
  exists names,
    Obj.get "makers" fields = Some (JArray names)
    /\ Forall (fun n => Server.isRedacted n = false) names.
Proof.
  unfold Server.cleanPost.
  destruct (negb (Js.truthy raw)); [discriminate|].
  repeat bind_step. intros H. injection H as <-.
  match goal with
  | Hm : Server.makerNames raw = Returns _ |- _ =>
      destruct (makerNames_clean _ _ Hm) as (names & -> & Hall)
  end.
  exists names. split; [reflexivity | exact Hall].
Qed.

Lemma cleanPost_drops_redacted_makers_witness :
  exists fields names,
    Server.cleanPost sampleRawPost = Returns (JObject fields)
    /\ Obj.get "makers" fields = Some (JArray names)
    /\ Forall (fun n => Server.isRedacted n = false) names.
Proof.
  destruct (Server.cleanPost sampleRawPost) as [[| | | | | |fields]| |] eqn:E;
    try (vm_compute in E; discriminate E).
  destruct (cleanPost_drops_redacted_makers sampleRawPost fields E)
    as (names & A & B).
  exists fields, names. repeat split; assumption.
Defined.

Lemma optSubstring_bound v n out :
  Server.optSubstring v n = Returns out ->
  out = JUndefined
  \/ exists full, v = JString full
                  /\ out = JString (Js.substring0 n full).
Proof.
  destruct v; cbn; intros H; try discriminate H; injection H as <-; eauto.
Qed.

(** The description of a cleaned post is absent or holds at most the
    first 300 characters of the raw description. *)
Theorem cleanPost_truncates_description raw fields :
  Server.cleanPost raw = Returns (JObject fields) ->
  Obj.get "description" fields = Some JUndefined
  \/ exists full shown,
       getProp raw "description" = Returns (JString full)
       /\ Obj.get "description" fields = Some (JString shown)
       /\ prefix shown full = true
       /\ (String.length shown <= 300)%nat.
Proof.
  unfold Server.cleanPost.
  destruct (negb (Js.truthy raw)); [discriminate|].
  repeat bind_step. intros H. injection H as <-.
  match goal with
  | Hd : Server.optSubstring _ 300 = Returns _ |- _ =>
      destruct (optSubstring_bound _ _ _ Hd) as [-> | (full & -> & ->)]
  end; [left; reflexivity|].
  right. exists full, (Js.substring0 300 full).
  repeat split; [apply prefix_substring0 | apply length_substring0].
Qed.

Lemma cleanPost_truncates_description_witness :
  exists fields,
    Server.cleanPost sampleRawPost = Returns (JObject fields)
    /\ (Obj.get "description" fields = Some JUndefined
        \/ exists full shown,
             getProp sampleRawPost "description" = Returns (JString full)
             /\ Obj.get "description" fields = Some (JString shown)
             /\ prefix shown full = true
             /\ (String.length shown <= 300)%nat).
Proof.
  destruct (Server.cleanPost sampleRawPost) as [[| | | | | |fields]| |] eqn:E;
    try (vm_compute in E; discriminate E).
  exists fields. split; [reflexivity|].
  exact (cleanPost_truncates_description sampleRawPost fields E).
Defined.

(** The description of a cleaned collection is absent or holds at most
    the first 200 characters of the raw description. *)
Theorem cleanCollection_truncates_description raw fields :
  Server.cleanCollection raw = Returns (JObject fields) ->
  Obj.get "description" fields = Some JUndefined
  \/ exists full shown,
       getProp raw "description" = Returns (JString full)
       /\ Obj.get "description" fields = Some (JString shown)
       /\ prefix shown full = true
       /\ (String.length shown <= 200)%nat.
Proof.
  unfold Server.cleanCollection.
  destruct (negb (Js.truthy raw)); [discriminate|].
  repeat bind_step. intros H. injection H as <-.
  match goal with
  | Hd : Server.optSubstring _ 200 = Returns _ |- _ =>
      destruct (optSubstring_bound _ _ _ Hd) as [-> | (full & -> & ->)]
  end; [left; reflexivity|].
  right. exists full, (Js.substring0 200 full).
  repeat split; [apply prefix_substring0 | apply length_substring0].
Qed.

Lemma cleanCollection_truncates_description_witness :
  exists fields,
    Server.cleanCollection sampleRawPost = Returns (JObject fields)
    /\ (Obj.get "description" fields = Some JUndefined
        \/ exists full shown,
             getProp sampleRawPost "description" = Returns (JString full)
             /\ Obj.get "description" fields = Some (JString shown)
             /\ prefix shown full = true
             /\ (String.length shown <= 200)%nat).
Proof.
  destruct (Server.cleanCollection sampleRawPost) as [[| | | | | |fields]| |] eqn:E;
    try (vm_compute in E; discriminate E).
  exists fields. split; [reflexivity|].
  exact (cleanCollection_truncates_description sampleRawPost fields E).
Defined.

Lemma mapM_length f items ys :
  Server.mapM f items = Returns ys -> List.length ys = List.length items.
Proof.
  intros H. apply mapM_each in H.
  induction H; cbn; [reflexivity | f_equal; assumption].
Qed.

Lemma topicNames_limited raw n v :
  0 <= n ->
  Server.topicNames raw (Some n) = Returns v ->
  exists names, v = JArray names
                /\ (List.length names <= Z.to_nat n)%nat
                /\ Forall (fun name => Js.truthy name = true) names.
Proof.
  intros Hn. unfold Server.topicNames. bind_step. bind_step.
  destruct j0; try discriminate;
    try (intros H; injection H as <-; exists []; cbn; repeat split; (lia || constructor)).
  bind_step. intros H. injection H as <-.
  eexists. split; [reflexivity|]. split.
  - apply mapM_length in E1.
    pose proof (filter_length_le Js.truthy l0) as Hle. rewrite E1 in Hle.
    unfold Js.slice0 in Hle.
    destruct (Z.ltb_spec n 0) as [Hneg|_]; [lia|].
    rewrite length_firstn in Hle. lia.
  - apply Forall_forall. intros x Hx. apply filter_In in Hx. apply Hx.
Qed.

(** A cleaned list item names at most three topics, none of them empty
    or missing. *)
Theorem cleanPostListItem_topics raw fields :
  Server.cleanPostListItem raw = Returns (JObject fields) ->
  exists names,
    Obj.get "topics" fields = Some (JArray names)
    /\ (List.length names <= 3)%nat
    /\ Forall (fun name => Js.truthy name = true) names.
Proof.
  unfold Server.cleanPostListItem.
  destruct (negb (Js.truthy raw)); [discriminate|].
  repeat bind_step. intros H. injection H as <-.
  match goal with
  | Ht : Server.topicNames raw (Some 3) = Returns _ |- _ =>
      destruct (topicNames_limited raw 3 _ ltac:(lia) Ht) as (names & -> & Hlen & Hall)
  end.
  exists names. repeat split; assumption.
Qed.

Lemma cleanPostListItem_topics_witness :
  exists fields names,
    Server.cleanPostListItem sampleRawPost = Returns (JObject fields)
    /\ Obj.get "topics" fields = Some (JArray names)
    /\ (List.length names <= 3)%nat
    /\ Forall (fun name => Js.truthy name = true) names.
Proof.
  destruct (Server.cleanPostListItem sampleRawPost) as [[| | | | | |fields]| |] eqn:E;
    try (vm_compute in E; discriminate E).
  destruct (cleanPostListItem_topics sampleRawPost fields E)
    as (names & A & B & C).
  exists fields, names. repeat split; assumption.
Defined.

(** ** The server's [saveData] and [formatResponse] *)






(** Without a directory or without a tool name the server's
    [formatResponse] writes nothing and its text is the encoded output. *)
Theorem server_formatResponse_without_saving encode cleanedData options w :
  nonEmpty (Server.saveDir options) = None \/ nonEmpty (Server.tool options) = None ->
  Server.formatResponse encode cleanedData options w
  = ({| content :=
          [ {| type := "text";
               text := encode (Server.outputOf cleanedData options) |} ] |}, w).
Proof.
  intros H. unfold Server.formatResponse. cbv zeta.
  destruct H as [-> | ->]; [|destruct (nonEmpty (Server.saveDir options))];
    reflexivity.
Qed.

Lemma server_formatResponse_without_saving_witness :
  Server.formatResponse Js.toString samplePost
    {| Server.saveDir := Some "/tmp"; Server.tool := None; Server.pagination := None |}
    writableWorld
  = ({| content :=
          [ {| type := "text";
               text := Js.toString
                         (Server.outputOf samplePost
                            {| Server.saveDir := Some "/tmp"; Server.tool := None;
                               Server.pagination := None |}) |} ] |},
     writableWorld).
Proof.
  exact (server_formatResponse_without_saving Js.toString samplePost
           {| Server.saveDir := Some "/tmp"; Server.tool := None;
              Server.pagination := None |}
           writableWorld (or_intror eq_refl)).
Defined.


